(** * copepod-biomass: grid generation and sparse regridding ([util.py])

    A shallow embedding of [latlon_to_scrip], [esmf_apply_weights] and the
    [regridder] class, and the properties of the written specification that
    can be settled on it.

    Numbers.  NumPy's float64 is IEEE 754 binary64; the regridding half of
    the file computes with the Standard Library's executable specification of
    it ([SpecFloat], precision 53, emax 1024, round to nearest even), so
    not-a-number, the infinities and the two zeros behave as they do in the
    program.  Grid generation needs [sin] and [pi], which have no binary64
    model here: its coordinates are exact rationals and its areas are real
    numbers. *)

From Stdlib Require Import ZArith QArith Qround Qfield Qreals Reals.
From Stdlib Require Import Lia Psatz List Bool String.
From Stdlib Require Import Floats.SpecFloat.
From stdpp Require Import base list strings.

Open Scope nat_scope.

(** ** binary64 *)

Module F64.

Definition prec : Z := 53.
Definition emax : Z := 1024.

Definition float := spec_float.

Definition add : float -> float -> float := SFadd prec emax.
Definition mul : float -> float -> float := SFmul prec emax.
Definition div : float -> float -> float := SFdiv prec emax.

(** [x > y], false as soon as one side is not-a-number. *)
Definition gt (x y : float) : bool := SFltb y x.
(** [x == y] of IEEE 754: the two zeros are equal, not-a-number is not. *)
Definition eqb (x y : float) : bool := SFeqb x y.

Definition isnan (x : float) : bool :=
  match x with S754_nan => true | _ => false end.

Definition is_finite (x : float) : bool :=
  match x with S754_zero _ | S754_finite _ _ _ => true | _ => false end.

Definition nan : float := S754_nan.
Definition zero : float := S754_zero false.
Definition of_Z (z : Z) : float := binary_normalize prec emax z 0 false.
Definition one : float := Eval cbv in of_Z 1.

(** A value that a float64 array can hold. *)
Definition valid (x : float) : bool := valid_binary prec emax x.

(** Equality of array elements as [numpy.testing.assert_array_equal]
    takes it: not-a-number matches not-a-number, otherwise [==]. *)
Definition same (x y : float) : bool :=
  (isnan x && isnan y) || eqb x y.

End F64.

Abbreviation float := F64.float.

(** ** Exceptions, warnings and NumPy's error state

    A transform can raise, can emit a warning and can read and change
    NumPy's floating-point error policy ([numpy.seterr]), so the program is
    written in a state-and-exception monad over that much of the world.
    Console output ([print]) is not modelled. *)

Inductive assert_msg :=
| horizontal_shape_differs (shape_horiz : list nat) (shape_in : nat * nat)
| weights_shape1_differs        (* "ny_in * nx_in should equal to weights.shape[1]" *)
| weights_shape0_differs        (* "ny_out * nx_out should equal to weights.shape[0]" *)
| not_equal_to_tolerance.       (* raised by [np.testing.assert_allclose] *)

Inductive exn :=
| NameError (name : string)
| AssertionError (msg : assert_msg)
| ValueError (msg : string)
| ZeroDivisionError
| FloatingPointError (what : string).

Inductive warning :=
| UserWarning (msg : string)
| RuntimeWarning (what : string).

(** The modes of [numpy.seterr]. *)
Inductive err_mode := err_ignore | err_warn | err_raise | err_call | err_print | err_log.

Record np_errstate := {
  err_divide : err_mode;
  err_over : err_mode;
  err_under : err_mode;
  err_invalid : err_mode
}.

(** NumPy's default policy. *)
Definition default_errstate : np_errstate :=
  {| err_divide := err_warn; err_over := err_warn;
     err_under := err_ignore; err_invalid := err_warn |}.

Record world := {
  errstate : np_errstate;
  warnings_log : list warning
}.

Definition py (A : Type) : Type := world -> (exn + A) * world.

Definition ret {A} (a : A) : py A := fun w => (inr a, w).
Definition raise {A} (e : exn) : py A := fun w => (inl e, w).
Definition bind {A B} (c : py A) (k : A -> py B) : py B :=
  fun w => match c w with
           | (inl e, w') => (inl e, w')
           | (inr a, w') => k a w'
           end.

Notation "'let*' x ':=' c 'in' k" := (bind c (fun x => k))
  (at level 10, x name, c at level 100, k at level 200).
Notation "'do' c 'in' k" := (bind c (fun _ => k))
  (at level 10, c at level 100, k at level 200).

Definition py_assert (b : bool) (msg : assert_msg) : py unit :=
  if b then ret tt else raise (AssertionError msg).

(** The names bound at the top level of [util.py]: its five imports and its
    three definitions.  A global that is not among them (and is no builtin)
    raises [NameError] when it is evaluated. *)
Definition module_globals : list string :=
  ["os"; "datetime"; "sps"; "np"; "xr";
   "latlon_to_scrip"; "esmf_apply_weights"; "regridder"]%string.

Definition load_global (name : string) : py unit :=
  if bool_decide (name ∈ module_globals) then ret tt else raise (NameError name).

(** [warnings.warn(msg)]: the name [warnings] is looked up first. *)
Definition warnings_warn (msg : string) : py unit :=
  do load_global "warnings" in
  fun w => (inr tt, {| errstate := errstate w;
                       warnings_log := warnings_log w ++ [UserWarning msg] |}).

(** [old = np.seterr(invalid=m)], and [np.seterr] called with the saved
    settings. *)
Definition np_seterr_invalid (m : err_mode) : py np_errstate :=
  fun w =>
    let old := errstate w in
    (inr old,
     {| errstate := {| err_divide := err_divide old; err_over := err_over old;
                       err_under := err_under old; err_invalid := m |};
        warnings_log := warnings_log w |}).

Definition np_seterr (s : np_errstate) : py np_errstate :=
  fun w => (inr (errstate w), {| errstate := s; warnings_log := warnings_log w |}).

(** ** Floating-point exceptions of a division

    What [x / y] signals.  Not-a-number operands are quiet and signal
    nothing.  Underflow is the inexact-and-tiny case, tininess being read off
    the delivered result. *)

Record fpflags := {
  fp_divide : bool;
  fp_over : bool;
  fp_under : bool;
  fp_invalid : bool
}.

Definition no_flags : fpflags :=
  {| fp_divide := false; fp_over := false; fp_under := false; fp_invalid := false |}.

Definition flags_or (a b : fpflags) : fpflags :=
  {| fp_divide := fp_divide a || fp_divide b;
     fp_over := fp_over a || fp_over b;
     fp_under := fp_under a || fp_under b;
     fp_invalid := fp_invalid a || fp_invalid b |}.

Definition div_inexact (mx : positive) (ex : Z) (my : positive) (ey : Z) : bool :=
  let '(mz, ez, lz) := SFdiv_core_binary F64.prec F64.emax (Zpos mx) ex (Zpos my) ey in
  let '(mrs, _) := shr_fexp F64.prec F64.emax mz ez lz in
  match loc_of_shr_record mrs with loc_Exact => false | _ => true end.

Definition is_tiny (r : float) : bool :=
  match r with
  | S754_zero _ => true
  | S754_finite _ m _ => (Zpos (digits2_pos m) <? F64.prec)%Z
  | _ => false
  end.

Definition div_flags (x y : float) : fpflags :=
  match x, y with
  | S754_zero _, S754_zero _ | S754_infinity _, S754_infinity _ =>
      {| fp_divide := false; fp_over := false; fp_under := false; fp_invalid := true |}
  | S754_finite _ _ _, S754_zero _ =>
      {| fp_divide := true; fp_over := false; fp_under := false; fp_invalid := false |}
  | S754_finite _ mx ex, S754_finite _ my ey =>
      {| fp_divide := false;
         fp_over := negb (F64.is_finite (F64.div x y));
         fp_under := div_inexact mx ex my ey && is_tiny (F64.div x y);
         fp_invalid := false |}
  | _, _ => no_flags
  end.

(** NumPy's handling of one raised flag under its mode.  [call], [print] and
    [log] report through a callback, the console or a log object; none of
    them is modelled and none raises here. *)
Definition fp_report (what : string) (mode : err_mode) (raised : bool) : py unit :=
  if raised then
    match mode with
    | err_raise => raise (FloatingPointError what)
    | err_warn =>
        fun w => (inr tt, {| errstate := errstate w;
                             warnings_log := warnings_log w ++ [RuntimeWarning what] |})
    | _ => ret tt
    end
  else ret tt.

(** After a ufunc loop: divide, overflow, underflow, invalid, in that order. *)
Definition fp_handle (fl : fpflags) : py unit :=
  fun w =>
    let st := errstate w in
    (do fp_report "divide by zero" (err_divide st) (fp_divide fl) in
     do fp_report "overflow" (err_over st) (fp_over fl) in
     do fp_report "underflow" (err_under st) (fp_under fl) in
     fp_report "invalid value" (err_invalid st) (fp_invalid fl)) w.

(** ** NumPy arrays

    An array is its shape, its elements in index (row-major) order, and its
    memory layout, of which the program reads only the [C_CONTIGUOUS] flag.
    [np.isnan] and [np.where] allocate their result in the order of their
    operand: a Fortran-ordered operand gives a Fortran-ordered result, any
    C-like one (contiguous or a strided view) a C-contiguous result. *)

Inductive layout :=
| C_layout      (* C-contiguous *)
| F_layout      (* Fortran order and not C-contiguous, e.g. a transposed array *)
| C_strided.    (* a strided view in C-like order, e.g. [a[..., ::2]] *)

Record ndarray (A : Type) := mk_ndarray {
  shape : list nat;
  data : list A;
  order : layout
}.
Arguments mk_ndarray {A}.
Arguments shape {A}.
Arguments data {A}.
Arguments order {A}.

Definition size_of (shp : list nat) : nat := fold_right Nat.mul 1 shp.

(** The array holds as many elements as its shape says. *)
Definition wf_array {A} (a : ndarray A) : Prop :=
  length (data a) = size_of (shape a).

Definition flags_C_CONTIGUOUS {A} (a : ndarray A) : bool :=
  match order a with C_layout => true | _ => false end.

Definition keep_order (l : layout) : layout :=
  match l with F_layout => F_layout | _ => C_layout end.

Definition np_isnan (a : ndarray float) : ndarray bool :=
  mk_ndarray (shape a) (F64.isnan <$> data a) (keep_order (order a)).

(** [a > s] for a scalar [s]. *)
Definition np_greater (a : ndarray float) (s : float) : ndarray bool :=
  mk_ndarray (shape a) ((fun v => F64.gt v s) <$> data a) (keep_order (order a)).

(** [np.where(c, x, y)] with both, the second or the first of [x], [y] a
    scalar; the array operands have the shape of [c] wherever the program
    calls it. *)
Definition np_where_ss (c : ndarray bool) (x y : float) : ndarray float :=
  mk_ndarray (shape c) ((fun b : bool => if b then x else y) <$> data c)
             (keep_order (order c)).

Definition np_where_sa (c : ndarray bool) (x : float) (y : ndarray float) : ndarray float :=
  mk_ndarray (shape c)
             (zip_with (fun (b : bool) v => if b then x else v) (data c) (data y))
             (keep_order (order c)).

Definition np_where_as (c : ndarray bool) (x : ndarray float) (y : float) : ndarray float :=
  mk_ndarray (shape c)
             (zip_with (fun (b : bool) v => if b then v else y) (data c) (data x))
             (keep_order (order c)).

(** [x / y] on arrays of one shape, under the error policy in force. *)
Definition np_divide (x y : ndarray float) : py (ndarray float) :=
  let fl := fold_right flags_or no_flags (zip_with div_flags (data x) (data y)) in
  do fp_handle fl in
  ret (mk_ndarray (shape x) (zip_with F64.div (data x) (data y)) C_layout).

(** [a.reshape(-1, n)] as the list of its rows.  The free dimension cannot
    be inferred when [n] is zero or does not divide the size. *)
Definition np_reshape_rows {A} (a : ndarray A) (n : nat) : py (list (list A)) :=
  let sz := length (data a) in
  if (n =? 0) || negb (sz mod n =? 0)
  then raise (ValueError "cannot reshape array")
  else ret (reshape (replicate (sz / n) n) (data a)).

(** The rows of [a.reshape(-1, n)]. *)
Definition batches {A} (n : nat) (a : ndarray A) : list (list A) :=
  reshape (replicate (length (data a) / n) n) (data a).

(** [reshape] of row-major elements to a given shape. *)
Definition np_reshape {A} (l : list A) (shp : list nat) : py (ndarray A) :=
  if length l =? size_of shp
  then ret (mk_ndarray shp l C_layout)
  else raise (ValueError "cannot reshape array").

(** Two-dimensional arrays and their transpose ([.T]). *)
Record array2 (A : Type) := mk_array2 {
  a2_shape : nat * nat;
  a2_data : list A
}.
Arguments mk_array2 {A}.
Arguments a2_shape {A}.
Arguments a2_data {A}.

(** Element [k = j * r + i] of the transpose of an [r] by [c] array is
    element [i * c + j] of the array. *)
Definition transpose2 {A} (r c : nat) (l : list A) : list A :=
  omap (fun k => l !! ((k mod r) * c + k / r)) (seq 0 (r * c)).

Definition T2 {A} (a : array2 A) : array2 A :=
  let '(r, c) := a2_shape a in
  mk_array2 (c, r) (transpose2 r c (a2_data a)).

Definition np_reshape2 {A} (l : list A) (shp : nat * nat) : py (array2 A) :=
  if length l =? shp.1 * shp.2
  then ret (mk_array2 shp l)
  else raise (ValueError "cannot reshape array").

(** ** Sparse matrices in coordinate format

    [scipy.sparse.coo_matrix((S, (row, col)), shape)] keeps the triplets as
    given, duplicates included, after checking the indices against the
    shape.  Its product with a dense vector starts from zeros and adds
    [S[n] * x[col[n]]] to [y[row[n]]], triplet by triplet. *)

Record coo_matrix := mk_coo {
  coo_shape : nat * nat;
  coo_entries : list (nat * nat * float)
}.

Definition sps_coo_matrix (triplets : list (Z * Z * float)) (shp : nat * nat)
  : py coo_matrix :=
  let rows := (fun t : Z * Z * float => t.1.1) <$> triplets in
  let cols := (fun t : Z * Z * float => t.1.2) <$> triplets in
  if existsb (fun r => (Z.of_nat shp.1 <=? r)%Z) rows
  then raise (ValueError "row index exceeds matrix dimensions")
  else if existsb (fun c => (Z.of_nat shp.2 <=? c)%Z) cols
  then raise (ValueError "column index exceeds matrix dimensions")
  else if existsb (fun r => (r <? 0)%Z) rows
  then raise (ValueError "negative row index found")
  else if existsb (fun c => (c <? 0)%Z) cols
  then raise (ValueError "negative column index found")
  else ret (mk_coo shp
              ((fun t : Z * Z * float => (Z.to_nat t.1.1, Z.to_nat t.1.2, t.2))
                 <$> triplets)).

Definition coo_accum (x y : list float) (e : nat * nat * float) : list float :=
  match y !! e.1.1, x !! e.1.2 with
  | Some yr, Some xc => <[e.1.1 := F64.add yr (F64.mul e.2 xc)]> y
  | _, _ => y
  end.

Definition coo_matvec (A : coo_matrix) (x : list float) : list float :=
  fold_left (coo_accum x) (coo_entries A) (replicate (coo_shape A).1 F64.zero).

(** What one triplet adds to the running sum of destination cell [r], and
    the sum over a table: the loop of [coo_matvec] read one row at a time. *)
Definition row_step (x : list float) (r : nat) (acc : float)
    (e : nat * nat * float) : float :=
  if bool_decide (e.1.1 = r) then
    match x !! e.1.2 with
    | Some xc => F64.add acc (F64.mul e.2 xc)
    | None => acc
    end
  else acc.

Definition row_sum (es : list (nat * nat * float)) (x : list float) (r : nat)
  : float :=
  fold_left (row_step x r) es F64.zero.

(** ** [esmf_apply_weights] *)

Definition esmf_apply_weights (weights : coo_matrix) (indata : ndarray float)
    (shape_in shape_out : nat * nat) : py (ndarray float) :=
  do (if negb (flags_C_CONTIGUOUS indata)
      then warnings_warn "Input array is not C_CONTIGUOUS. Will affect performance."
      else ret tt) in
  (* get input shape information *)
  let shape_horiz := drop (length (shape indata) - 2) (shape indata) in
  let extra_shape := take (length (shape indata) - 2) (shape indata) in
  do py_assert (bool_decide (shape_horiz = [shape_in.1; shape_in.2]))
               (horizontal_shape_differs shape_horiz shape_in) in
  do py_assert (shape_in.1 * shape_in.2 =? (coo_shape weights).2)
               weights_shape1_differs in
  do py_assert (shape_out.1 * shape_out.2 =? (coo_shape weights).1)
               weights_shape0_differs in
  (* use flattened array for dot operation *)
  let* indata_flat := np_reshape_rows indata (shape_in.1 * shape_in.2) in
  let outdata_flat := coo_matvec weights <$> indata_flat in
  (* unflattened output array *)
  np_reshape (mjoin outdata_flat) (extra_shape ++ [shape_out.1; shape_out.2]).

(** ** The regridder

    What the constructor reads from its three files: [grid_dims] (stored as
    [[nx, ny]]) of both grids, [grid_imask] of the destination grid, and the
    aligned [row], [col], [S] columns of the weight file, here one triplet
    per weight with [row] and [col] counted from one. *)

Record grid_file := {
  grid_dims : nat * nat;          (* [nx, ny] *)
  grid_imask : list Z
}.

Record weight_file := {
  row_col_S : list (Z * Z * float)
}.

Record regridder := {
  src_grid_file : string;
  dst_grid_file : string;
  dims_src : nat * nat;           (* (ny, nx) *)
  dims_dst : nat * nat;
  mask_dst : array2 Z;
  weights : coo_matrix
}.

(** [regridder.__init__]. *)
Definition regridder_init (src_name dst_name : string)
    (src dst : grid_file) (mf : weight_file) : py regridder :=
  let dims_src := prod_swap (grid_dims src) in
  let dims_dst := prod_swap (grid_dims dst) in
  let* m := np_reshape2 (grid_imask dst) dims_dst in
  let mask_dst := T2 m in
  let n_dst := dims_dst.1 * dims_dst.2 in
  let n_src := dims_src.1 * dims_src.2 in
  let triplets :=
    (fun t : Z * Z * float => (t.1.1 - 1, t.1.2 - 1, t.2)%Z) <$> row_col_S mf in
  let* weights := sps_coo_matrix triplets (n_dst, n_src) in
  ret {| src_grid_file := src_name; dst_grid_file := dst_name;
         dims_src := dims_src; dims_dst := dims_dst;
         mask_dst := mask_dst; weights := weights |}.

(** An [xarray.DataArray]: the array and its labels. *)
Record DataArray := {
  da_data : ndarray float;
  da_name : string;
  da_dims : list string;
  da_attrs : list (string * string);
  da_coords : list (string * list float)
}.

Definition coords_lookup (d : string) (coords : list (string * list float))
  : option (list float) :=
  snd <$> find (fun p : string * list float => bool_decide (p.1 = d)) coords.

(** [da.where(cond)] for a two-dimensional [cond] over the last two axes:
    elements where [cond] is zero become not-a-number. *)
Definition da_where (da : DataArray) (cond : array2 Z) : DataArray :=
  let shp := shape (da_data da) in
  let batch := size_of (take (length shp - 2) shp) in
  let cond_b := mjoin (replicate batch (a2_data cond)) in
  {| da_data :=
       mk_ndarray shp
         (zip_with (fun v (m : Z) => if (m =? 0)%Z then F64.nan else v)
                   (data (da_data da)) cond_b)
         C_layout;
     da_name := da_name da; da_dims := da_dims da;
     da_attrs := da_attrs da; da_coords := da_coords da |}.

(** [regridder.regrid_dataarray]. *)
Definition regrid_dataarray (self : regridder) (da_in : DataArray)
    (renormalize apply_mask : bool) : py DataArray :=
  (* Pull data, dims and coords from incoming DataArray *)
  let data_src := da_data da_in in
  let non_lateral_dims := take (length (da_dims da_in) - 2) (da_dims da_in) in
  let copy_coords :=
    omap (fun d => pair d <$> coords_lookup d (da_coords da_in)) non_lateral_dims in
  (* If renormalize == True, remap a field of ones ([ones_src] is bound and
     read only then) *)
  let ones_src := np_where_ss (np_isnan data_src) F64.zero F64.one in
  let data_src :=
    if renormalize then np_where_sa (np_isnan data_src) F64.zero data_src
    else data_src in
  (* remap the field *)
  let* data_dst :=
    esmf_apply_weights (weights self) data_src (dims_src self) (dims_dst self) in
  (* Renormalize to include non-missing data_src *)
  let* data_dst :=
    (if renormalize then
       let* old_err_settings := np_seterr_invalid err_ignore in
       let* ones_dst :=
         esmf_apply_weights (weights self) ones_src (dims_src self) (dims_dst self) in
       let ones_dst := np_where_as (np_greater ones_dst F64.zero) ones_dst F64.nan in
       let* data_dst := np_divide data_dst ones_dst in
       let data_dst := np_where_as (np_greater ones_dst F64.zero) data_dst F64.nan in
       do np_seterr old_err_settings in
       ret data_dst
     else ret data_dst) in
  (* reform into xarray.DataArray *)
  let da_out :=
    {| da_data := data_dst; da_name := da_name da_in; da_dims := da_dims da_in;
       da_attrs := da_attrs da_in; da_coords := copy_coords |} in
  (* Apply a missing-values mask *)
  ret (if apply_mask then da_where da_out (T2 (mask_dst self)) else da_out).

(** ** [latlon_to_scrip]

    Degrees are exact rationals; areas, which go through [sin] and [pi], are
    real numbers.  The title and date attributes and the optional write to a
    file are not modelled. *)

Module Scrip.

Local Open Scope Q_scope.

(** [np.arange(start, stop, step)]: [ceil((stop - start) / step)] values
    [start + i * step]. *)
Definition np_arange (start stop step : Q) : list Q :=
  let n := Z.to_nat (Qceiling ((stop - start) / step)) in
  (fun i : nat => start + inject_Z (Z.of_nat i) * step) <$> seq 0 n.

(** [np.broadcast_to(lat[:, None], (ny, nx))]: one row per latitude. *)
Definition broadcast_rows (lat : list Q) (ny nx : Z) : exn + list (list Q) :=
  if ((ny <? 0) || (nx <? 0))%Z
  then inl (ValueError "all elements of broadcast shape must be non-negative")
  else if (Z.of_nat (length lat) =? ny)%Z
  then inr ((fun y => replicate (Z.to_nat nx) y) <$> lat)
  else match lat with
       | [y] => inr (replicate (Z.to_nat ny) (replicate (Z.to_nat nx) y))
       | _ => inl (ValueError "operands could not be broadcast together")
       end.

(** [np.broadcast_to(lon[None, :], (ny, nx))]: every row is [lon]. *)
Definition broadcast_cols (lon : list Q) (ny nx : Z) : exn + list (list Q) :=
  if ((ny <? 0) || (nx <? 0))%Z
  then inl (ValueError "all elements of broadcast shape must be non-negative")
  else if (Z.of_nat (length lon) =? nx)%Z
  then inr (replicate (Z.to_nat ny) lon)
  else match lon with
       | [x] => inr (replicate (Z.to_nat ny) (replicate (Z.to_nat nx) x))
       | _ => inl (ValueError "operands could not be broadcast together")
       end.

(** The four corners of a cell along the last axis: SW, SE, NE, NW. *)
Record corners := mk_corners { c0 : Q; c1 : Q; c2 : Q; c3 : Q }.

Definition deg2rad (d : Q) : R := (Q2R d * PI / 180)%R.

Definition cell_area (y_corner x_corner : corners) : R :=
  let y0 := sin (deg2rad (c0 y_corner)) in     (* south *)
  let y1 := sin (deg2rad (c3 y_corner)) in     (* north *)
  let x0 := deg2rad (c0 x_corner) in           (* west *)
  let x1 := deg2rad (c1 x_corner) in           (* east *)
  ((y1 - y0) * (x1 - x0))%R.

Definition Rsum (l : list R) : R := fold_right Rplus 0%R l.


Definition assert_allclose (actual desired : R) : exn + unit :=
  if Rle_dec (Rabs (actual - desired)) (/ 10000000 * Rabs desired)
  then inr tt else inl (AssertionError not_equal_to_tolerance).

Record dataset := {
  grid_dims : Z * Z;
  grid_center_lat : list Q;
  grid_center_lon : list Q;
  grid_corner_lat : list corners;
  grid_corner_lon : list corners;
  grid_imask : list Z;
  grid_area : list R
}.

(** The cell centres and corners, on the [(ny, nx)] grid. *)
Definition centers (nx ny : Z) (lon0 : Q)
  : exn + list (list Q) * list (list Q) :=
  (* compute coordinates of regular grid *)
  let dx := 360 / inject_Z nx in
  let dy := 180 / inject_Z ny in
  let lat := np_arange (-90 + dy / 2) 90 dy in
  let lon := np_arange (lon0 + dx / 2) (lon0 + 360) dx in
  (* make 2D *)
  match broadcast_rows lat ny nx with
  | inl e => inl e
  | inr y_center =>
      match broadcast_cols lon ny nx with
      | inl e => inl e
      | inr x_center => inr (y_center, x_center)
      end
  end.

Definition y_corner_of (dy y : Q) : corners :=
  mk_corners (y - dy / 2)    (* SW *)
             (y - dy / 2)    (* SE *)
             (y + dy / 2)    (* NE *)
             (y + dy / 2).   (* NW *)

Definition x_corner_of (dx x : Q) : corners :=
  mk_corners (x - dx / 2)    (* SW *)
             (x + dx / 2)    (* SE *)
             (x + dx / 2)    (* NE *)
             (x - dx / 2).   (* NW *)

Definition y_corners (dy : Q) (y_center : list (list Q)) : list (list corners) :=
  (fun row : list Q => y_corner_of dy <$> row) <$> y_center.

Definition x_corners (dx : Q) (x_center : list (list Q)) : list (list corners) :=
  (fun row : list Q => x_corner_of dx <$> row) <$> x_center.

Definition latlon_to_scrip (nx ny : Z) (lon0 : Q) (mask : option (list Z))
  : exn + dataset :=
  if ((nx =? 0) || (ny =? 0))%Z then inl ZeroDivisionError else
  let dx := 360 / inject_Z nx in
  let dy := 180 / inject_Z ny in
  match centers nx ny lon0 with
  | inl e => inl e
  | inr (y_center, x_center) =>
      (* compute corner points: must be counterclockwise *)
      let y_corner := y_corners dy y_center in
      let x_corner := x_corners dx x_center in
      (* compute area *)
      let area := zip_with (zip_with cell_area) y_corner x_corner in
      (* sum of area should be equal to area of sphere *)
      match assert_allclose (Rsum (mjoin area)) (4 * PI) with
      | inl e => inl e
      | inr _ =>
          (* construct mask *)
          let imask :=
            match mask with
            | None => replicate (Z.to_nat (ny * nx)) 1%Z
            | Some m => m
            end in
          (* generate output dataset; every variable on [grid_size] has
             to have the same length *)
          if negb (length imask =? length (mjoin y_center))%nat
          then inl (ValueError "conflicting sizes for dimension 'grid_size'")
          else inr {| grid_dims := (nx, ny);
                      grid_center_lat := mjoin y_center;
                      grid_center_lon := mjoin x_center;
                      grid_corner_lat := mjoin y_corner;
                      grid_corner_lon := mjoin x_corner;
                      grid_imask := imask;
                      grid_area := mjoin area |}
      end
  end.

(** Notions used in the statements about the areas. *)

(** The band of a row of cells: the difference of the sines of its northern
    and southern latitudes. *)
Definition band (dy y : Q) : R :=
  (sin (deg2rad (y + dy / 2)) - sin (deg2rad (y - dy / 2)))%R.

(** The sine of the latitude of the [k]-th cell boundary, counted from the
    south pole. *)
Definition boundary_sin (dy : Q) (k : nat) : R :=
  sin (deg2rad (-90 + inject_Z (Z.of_nat k) * dy)).

(** The part of a grid dataset that [regridder] reads back. *)
Definition to_grid_file (ds : dataset) : grid_file :=
  Build_grid_file (Z.to_nat (grid_dims ds).1, Z.to_nat (grid_dims ds).2)
                  (grid_imask ds).

End Scrip.

(** ** Notions used in the statements *)

(** What [0.0 + 1.0 * v] is: [v], except that [-0.0] comes back as [+0.0]. *)
Definition through_identity (v : float) : float :=
  match v with S754_zero _ => F64.zero | _ => v end.

(** The two source arrays of a renormalized transform, element by element:
    the data with not-a-number replaced by [0.0], and the indicator of the
    values that are not not-a-number. *)
Definition fill_missing (v : float) : float :=
  if F64.isnan v then F64.zero else v.

Definition indicator (v : float) : float :=
  if F64.isnan v then F64.zero else F64.one.

(** The raw remapped value and the coverage of destination cell [k], for
    the source row [xs] of one batch. *)
Definition raw_cell (self : regridder) (xs : list float) (k : nat) : float :=
  row_sum (coo_entries (weights self)) (fill_missing <$> xs) k.

Definition coverage_cell (self : regridder) (xs : list float) (k : nat) : float :=
  row_sum (coo_entries (weights self)) (indicator <$> xs) k.

(** Division by the coverage where it is positive, not-a-number elsewhere. *)
Definition renormalized (raw cov : float) : float :=
  if F64.gt cov F64.zero then F64.div raw cov else F64.nan.

Definition masked (m : Z) (v : float) : float :=
  if (m =? 0)%Z then F64.nan else v.

Definition n_src (self : regridder) : nat := (dims_src self).1 * (dims_src self).2.
Definition n_dst (self : regridder) : nat := (dims_dst self).1 * (dims_dst self).2.

(** The mask in the orientation in which [regrid_dataarray] applies it. *)
Definition mask_cells (self : regridder) : list Z := a2_data (T2 (mask_dst self)).

(** What [regridder.__init__] establishes. *)
Definition wf_regridder (self : regridder) : Prop :=
  coo_shape (weights self) = (n_dst self, n_src self)
  /\ length (mask_cells self) = n_dst self.

(** A field the regridder can take: as many elements as its shape says, the
    source grid on its last two axes, and a layout that reaches
    [esmf_apply_weights] C-contiguous (after the copy made by [np.where]
    when renormalizing, as it is otherwise). *)
Definition field_fits (self : regridder) (a : ndarray float) (renormalize : bool)
  : Prop :=
  wf_array a
  /\ drop (length (shape a) - 2) (shape a) = [(dims_src self).1; (dims_src self).2]
  /\ 0 < n_src self
  /\ (if renormalize then keep_order (order a) else order a) = C_layout.

(** The arrays of a renormalized transform, flattened: raw remapped values,
    coverage, the flags raised by dividing the one by the other, and the
    renormalized values. *)
Definition raw_array (self : regridder) (a : ndarray float) : list float :=
  mjoin (coo_matvec (weights self) <$> (fmap fill_missing <$> batches (n_src self) a)).

Definition coverage_array (self : regridder) (a : ndarray float) : list float :=
  mjoin (coo_matvec (weights self) <$> (fmap indicator <$> batches (n_src self) a)).

Definition positive_or_nan (c : float) : float :=
  if F64.gt c F64.zero then c else F64.nan.

Definition renormalize_flags (self : regridder) (a : ndarray float) : fpflags :=
  fold_right flags_or no_flags
    (zip_with div_flags (raw_array self a) (positive_or_nan <$> coverage_array self a)).

Definition renormalized_array (self : regridder) (a : ndarray float) : list float :=
  zip_with renormalized (raw_array self a) (coverage_array self a).

(** The flattened result of a transform that does not renormalize. *)
Definition remapped_array (self : regridder) (a : ndarray float) : list float :=
  mjoin (coo_matvec (weights self) <$> batches (n_src self) a).

(** The error policy with invalid-value reports switched off. *)
Definition invalid_ignored (st : np_errstate) : np_errstate :=
  {| err_divide := err_divide st; err_over := err_over st;
     err_under := err_under st; err_invalid := err_ignore |}.

Definition with_errstate (st : np_errstate) (w : world) : world :=
  {| errstate := st; warnings_log := warnings_log w |}.

(** The shape of the transformed field. *)
Definition out_shape (self : regridder) (a : ndarray float) : list nat :=
  take (length (shape a) - 2) (shape a) ++ [(dims_dst self).1; (dims_dst self).2].

(** The labels of the result and the final masking step. *)
Definition reform (da_in : DataArray) (a : ndarray float) : DataArray :=
  {| da_data := a; da_name := da_name da_in; da_dims := da_dims da_in;
     da_attrs := da_attrs da_in;
     da_coords :=
       omap (fun d => pair d <$> coords_lookup d (da_coords da_in))
            (take (length (da_dims da_in) - 2) (da_dims da_in)) |}.

Definition finish (self : regridder) (apply_mask : bool) (da_out : DataArray)
  : DataArray :=
  if apply_mask then da_where da_out (T2 (mask_dst self)) else da_out.

(** Full coverage: every destination cell of every batch collects a positive
    (finite) coverage. *)
Definition full_coverage (self : regridder) (a : ndarray float) : Prop :=
  forall b xs k,
    batches (n_src self) a !! b = Some xs -> k < n_dst self ->
    exists m e, coverage_cell self xs k = S754_finite false m e.

(** The number of batches of a field: the product of its leading
    dimensions. *)
Definition n_batches (a : ndarray float) : nat :=
  size_of (take (length (shape a) - 2) (shape a)).

(** Arrays that agree as [numpy.testing.assert_array_equal] has it. *)
Definition array_equal (xs ys : list float) : Prop :=
  Forall2 (fun x y => F64.same x y = true) xs ys.

Definition all_valid (xs : list float) : Prop :=
  Forall (fun v => F64.valid v = true) xs.

(** An error policy under which overflow and underflow do not raise. *)
Definition no_raise (st : np_errstate) : Prop :=
  err_over st <> err_raise /\ err_under st <> err_raise.

(** ** Sample inputs *)

(** A session with NumPy's default error policy and nothing warned yet. *)
Definition world0 : world :=
  {| errstate := default_errstate; warnings_log := [] |}.

(** The diagonal of the identity operator on [n] cells, and the same as a
    weight table (indices from one). *)
Definition diagonal (n : nat) : list (nat * nat * float) :=
  (fun i => (i, i, F64.one)) <$> seq 0 n.

Definition identity_coo (n : nat) : coo_matrix := mk_coo (n, n) (diagonal n).

Definition identity_table (n : nat) : weight_file :=
  {| row_col_S :=
       (fun i => (Z.of_nat i + 1, Z.of_nat i + 1, F64.one)%Z) <$> seq 0 n |}.

(** The field [[1, 2], [3, 4]] in a given memory layout, and a [3 x 2] field
    of ones. *)
Definition field_1234 (lay : layout) : ndarray float :=
  mk_ndarray [2; 2] (F64.of_Z <$> [1; 2; 3; 4]%Z) lay.

Definition ones_3x2 (lay : layout) : ndarray float :=
  mk_ndarray [3; 2] (replicate 6 F64.one) lay.

(** A [1 x 1] operator whose only weight is an explicit zero. *)
Definition zero_weight_coo : coo_matrix := mk_coo (1, 1) [(0, 0, F64.zero)].

(** A regridder from one source cell to two destination cells, the second of
    which is absent from the weight table; built by the constructor from a
    [1 x 1] grid, a [2 x 1] grid ([nx = 2], [ny = 1]) and a one-line table. *)
Definition grid_1x1 : grid_file := {| grid_dims := (1, 1); grid_imask := [1%Z] |}.
Definition grid_2x1 : grid_file := {| grid_dims := (2, 1); grid_imask := [1%Z; 1%Z] |}.
Definition one_weight : weight_file := {| row_col_S := [(1%Z, 1%Z, F64.one)] |}.

Definition half_covered : regridder :=
  {| src_grid_file := "src.nc"; dst_grid_file := "dst.nc";
     dims_src := (1, 1); dims_dst := (1, 2);
     mask_dst := mk_array2 (2, 1) [1%Z; 1%Z];
     weights := mk_coo (2, 1) [(0, 0, F64.one)] |}.

(** The same with both destination cells fed by the source cell and the
    second one masked out in the destination grid. *)
Definition grid_2x1_masked : grid_file :=
  {| grid_dims := (2, 1); grid_imask := [1%Z; 0%Z] |}.

Definition two_weights : weight_file :=
  {| row_col_S := [(1%Z, 1%Z, F64.one); (2%Z, 1%Z, F64.one)] |}.

Definition half_masked : regridder :=
  {| src_grid_file := "src.nc"; dst_grid_file := "dst.nc";
     dims_src := (1, 1); dims_dst := (1, 2);
     mask_dst := mk_array2 (2, 1) [1%Z; 0%Z];
     weights := mk_coo (2, 1) [(0, 0, F64.one); (1, 0, F64.one)] |}.

(** A [2 x 2] grid with nothing masked. *)
Definition grid_2x2 : grid_file :=
  {| grid_dims := (2, 2); grid_imask := [1%Z; 1%Z; 1%Z; 1%Z] |}.

(** A session in which every floating-point report raises, as after
    [np.seterr(all='raise')]. *)
Definition raise_all : np_errstate :=
  {| err_divide := err_raise; err_over := err_raise;
     err_under := err_raise; err_invalid := err_raise |}.

Definition world_raise_all : world :=
  {| errstate := raise_all; warnings_log := [] |}.

(** Two source cells remapped to one destination cell with weights [1.0]
    and [-0.5], and the largest power of two among the binary64 numbers. *)
Definition minus_half : float :=
  Eval vm_compute in F64.div (F64.of_Z (-1)) (F64.of_Z 2).

Definition two_to_1023 : float := Eval vm_compute in F64.of_Z (2 ^ 1023).

Definition signed_weights : regridder :=
  {| src_grid_file := "src.nc"; dst_grid_file := "dst.nc";
     dims_src := (1, 2); dims_dst := (1, 1);
     mask_dst := mk_array2 (1, 1) [1%Z];
     weights := mk_coo (1, 2) [(0, 0, F64.one); (0, 1, minus_half)] |}.

Definition field_of (shp : list nat) (vals : list float) : DataArray :=
  {| da_data := mk_ndarray shp vals C_layout; da_name := "field";
     da_dims := ["lat"; "lon"]; da_attrs := []; da_coords := [] |}.

(** The elements of the field a transform returned, if it returned. *)
Definition result_data (r : (exn + DataArray) * world) : option (list float) :=
  match r.1 with
  | inr da => Some (data (da_data da))
  | inl _ => None
  end.

(** ** Notions used in the further properties *)
(** A weight table whose one-based indices address the cells of the two
    grids. *)
Definition table_in_range (mf : weight_file) (n_dst n_src : nat) : Prop :=
  Forall (fun t : Z * Z * float =>
            (1 <= t.1.1 <= Z.of_nat n_dst)%Z /\ (1 <= t.1.2 <= Z.of_nat n_src)%Z)
         (row_col_S mf).

(** What the constructor needs of its files: a destination mask with one
    entry per cell and a weight table within the grids. *)
Definition files_fit (src dst : grid_file) (mf : weight_file) : Prop :=
  length (grid_imask dst) = (grid_dims dst).2 * (grid_dims dst).1
  /\ table_in_range mf ((grid_dims dst).2 * (grid_dims dst).1)
                       ((grid_dims src).2 * (grid_dims src).1).

(** A value that is a zero of either sign or not-a-number: what a sum of
    products with [0.0] can be. *)
Definition zero_or_nan (v : float) : Prop :=
  match v with S754_zero _ | S754_nan => True | _ => False end.

(** The reports a renormalized transform can make. *)
Definition range_report (x : warning) : Prop :=
  x = RuntimeWarning "overflow" \/ x = RuntimeWarning "underflow".






(** ** [regridder.__repr__]

    [os.path.basename] on a POSIX system: [p[p.rfind('/') + 1:]]. *)

Module Posix.
Import Stdlib.Strings.Ascii.
(** [posixpath.sep]. *)
Definition sep : Ascii.ascii := "/"%char.
End Posix.

(** [p.rfind(c)]: the index of the last [c] in [p], or [-1]. *)
Fixpoint rfind (c : Ascii.ascii) (p : string) : Z :=
  match p with
  | EmptyString => (-1)%Z
  | String a rest =>
      let r := rfind c rest in
      if (0 <=? r)%Z then (r + 1)%Z
      else if Ascii.eqb a c then 0%Z else (-1)%Z
  end.

Definition basename (p : string) : string :=
  let i := Z.to_nat (rfind Posix.sep p + 1) in
  String.substring i (String.length p - i) p.

Definition regridder_repr (self : regridder) : string :=
  String.append "regridder "
    (String.append (basename (src_grid_file self))
       (String.append " --> " (basename (dst_grid_file self)))).

(** A file name: a string without a slash. *)
Definition no_slash (p : string) : Prop := rfind Posix.sep p = (-1)%Z.

(** [os.path.join(dir, name)] for a relative [name] and a directory
    written without a trailing slash. *)
Definition path_join (dir name : string) : string :=
  String.append dir (String Posix.sep name).

(** * Properties *)

(** ** binary64 facts

    [SpecFloat] is stated over the kernel's copies of the integer
    operations; [std_arith] rewrites them to the Standard Library's, whose
    lemmas and [lia] then apply. *)

Ltac std_arith :=
  change IntDef.Z.add with Z.add in *;
  change IntDef.Z.sub with Z.sub in *;
  change IntDef.Z.mul with Z.mul in *;
  change IntDef.Z.opp with Z.opp in *;
  change IntDef.Z.leb with Z.leb in *;
  change IntDef.Z.eqb with Z.eqb in *;
  change IntDef.Z.max with Z.max in *;
  change IntDef.Z.min with Z.min in *;
  change IntDef.Z.compare with Z.compare in *;
  change IntDef.Z.even with Z.even in *;
  change IntDef.Z.div_eucl with Z.div_eucl in *;
  change IntDef.Z.shiftl with Z.shiftl in *;
  change PosDef.Pos.mul with Pos.mul in *;
  change PosDef.Pos.succ with Pos.succ in *.

Section binary64.

Import F64.

Lemma fexp_canonical m e :
  canonical_mantissa prec emax m e = true ->
  fexp prec emax (Z.pos (digits2_pos m) + e) = e.
Proof.
  unfold canonical_mantissa. intros H. std_arith.
  now apply Z.eqb_eq in H.
Qed.

(** A canonical mantissa is already rounded. *)
Lemma round_canonical sx m e :
  bounded prec emax m e = true ->
  binary_round_aux prec emax sx (Z.pos m) e loc_Exact = S754_finite sx m e.
Proof.
  unfold bounded. intros H. apply andb_prop in H as [Hc Hb].
  apply fexp_canonical in Hc. std_arith.
  unfold binary_round_aux, shr_fexp. cbn [Zdigits2 shr_record_of_loc]. std_arith.
  rewrite Hc, Z.sub_diag.
  cbv [shr shr_m loc_of_shr_record round_nearest_even].
  cbn [Zdigits2]. std_arith. rewrite Hc, Z.sub_diag. cbv [shr shr_m].
  std_arith. now rewrite Hb.
Qed.

(** The same mantissa with one more low zero bit, one exponent lower. *)
Lemma round_canonical_shifted sx m e :
  bounded prec emax m e = true ->
  binary_round_aux prec emax sx (Z.pos m~0) (e - 1) loc_Exact = S754_finite sx m e.
Proof.
  unfold bounded. intros H. apply andb_prop in H as [Hc Hb].
  apply fexp_canonical in Hc. std_arith.
  unfold binary_round_aux, shr_fexp.
  cbn [Zdigits2 digits2_pos shr_record_of_loc]. std_arith.
  rewrite Pos2Z.inj_succ.
  replace (Z.succ (Z.pos (digits2_pos m)) + (e - 1))%Z
    with (Z.pos (digits2_pos m) + e)%Z by lia.
  rewrite Hc. replace (e - (e - 1))%Z with 1%Z by lia.
  cbv [shr SpecFloat.iter_pos shr_1 orb shr_m loc_of_shr_record round_nearest_even].
  std_arith. replace (e - 1 + 1)%Z with e by lia.
  cbn [Zdigits2]. std_arith. rewrite Hc, Z.sub_diag. cbv [shr shr_m].
  std_arith. now rewrite Hb.
Qed.

Lemma mul_one_l x : valid x = true -> mul one x = x.
Proof.
  destruct x as [s|s| |s m e]; try reflexivity.
  cbn [valid valid_binary]. intros H.
  unfold mul, one, SFmul. cbn [xorb].
  assert (Hc := H). unfold bounded in Hc. apply andb_prop in Hc as [Hc Hb].
  apply fexp_canonical in Hc. std_arith.
  unfold binary_round_aux, shr_fexp.
  cbv [PosDef.Pos.mul]. cbn [Zdigits2 digits2_pos shr_record_of_loc]. std_arith.
  rewrite !Pos2Z.inj_succ.
  replace (_ + (-52 + e))%Z with (Z.pos (digits2_pos m) + e)%Z by lia.
  rewrite Hc. replace (e - (-52 + e))%Z with 52%Z by lia.
  cbv [shr SpecFloat.iter_pos shr_1 orb shr_m loc_of_shr_record round_nearest_even].
  std_arith. replace (-52 + e + 52)%Z with e by lia.
  cbn [Zdigits2]. std_arith. rewrite Hc, Z.sub_diag. cbv [shr shr_m].
  std_arith. now rewrite Hb.
Qed.

(** Adding to [+0.0] keeps every value but [-0.0], which becomes [+0.0]. *)
Lemma add_zero_l x :
  add zero x = match x with S754_zero _ => zero | _ => x end.
Proof. now destruct x as [[]|[]| |]. Qed.

Lemma div_eucl_exact q b :
  (0 < b)%Z -> Z.div_eucl (q * b) b = (q, 0%Z).
Proof.
  intros Hb. pose proof (Z_div_mod (q * b) b ltac:(lia)) as H.
  destruct (Z.div_eucl (q * b) b) as [q' r']. destruct H as [H1 H2].
  assert (q' = q) by nia. subst q'. f_equal. lia.
Qed.

Lemma new_location_0 n : new_location n 0 = loc_Exact.
Proof.
  unfold new_location, new_location_even, new_location_odd.
  now destruct (IntDef.Z.even n).
Qed.

(** [x / x] is exactly [1.0] for every finite non-zero [x]. *)
Lemma div_self s m e :
  div (S754_finite s m e) (S754_finite s m e) = one.
Proof.
  unfold div, SFdiv, SFdiv_core_binary. cbn [Zdigits2]. std_arith.
  rewrite !Z.sub_diag.
  change (Z.min (fexp prec emax 0) 0) with (-53)%Z.
  change (0 - -53)%Z with 53%Z. cbv iota beta.
  rewrite Z.shiftl_mul_pow2 by lia.
  rewrite (Z.mul_comm (Z.pos m)).
  rewrite div_eucl_exact by lia.
  rewrite new_location_0, xorb_nilpotent. reflexivity.
Qed.

(** The exponent that [SFdiv] picks for a quotient by [1.0]. *)
Lemma fexp_below m e :
  fexp prec emax (Z.pos (digits2_pos m) + e) = e ->
  fexp prec emax (Z.pos (digits2_pos m) + e - 1) = (e - 1)%Z
  \/ fexp prec emax (Z.pos (digits2_pos m) + e - 1) = e.
Proof. unfold fexp, emin. std_arith. unfold prec, emax. lia. Qed.

Lemma div_one_r x : valid x = true -> div x one = x.
Proof.
  destruct x as [s|s| |s m e]; try (destruct s; reflexivity); try reflexivity.
  cbn [valid valid_binary]. intros H.
  assert (Hc := H). unfold bounded in Hc. apply andb_prop in Hc as [Hc Hb].
  apply fexp_canonical in Hc. std_arith.
  unfold div, one, SFdiv, SFdiv_core_binary. cbn [Zdigits2 digits2_pos]. std_arith.
  change (Z.pos (Pos.succ _) + -52)%Z with 1%Z.
  replace (e - -52)%Z with (e + 52)%Z by lia.
  destruct (fexp_below m e Hc) as [He|He]; rewrite He.
  - replace (Z.min (e - 1) (e + 52)) with (e - 1)%Z by lia.
    replace (e + 52 - (e - 1))%Z with 53%Z by lia. cbv iota beta.
    rewrite Z.shiftl_mul_pow2 by lia.
    replace (Z.pos m * 2 ^ 53)%Z with (Z.pos m~0 * 4503599627370496)%Z by lia.
    rewrite div_eucl_exact by lia. rewrite new_location_0.
    rewrite xorb_false_r. now apply round_canonical_shifted.
  - replace (Z.min e (e + 52)) with e by lia.
    replace (e + 52 - e)%Z with 52%Z by lia. cbv iota beta.
    rewrite Z.shiftl_mul_pow2 by lia.
    change (2 ^ 52)%Z with 4503599627370496%Z.
    rewrite div_eucl_exact by lia. rewrite new_location_0.
    rewrite xorb_false_r. now apply round_canonical.
Qed.

(** Not-a-number absorbs, and a non-finite operand keeps sums and
    products non-finite. *)
Lemma mul_nan_r s : mul s nan = nan.
Proof. now destruct s. Qed.

Lemma add_nan_r a : add a nan = nan.
Proof. now destruct a. Qed.

Lemma add_nan_l b : add nan b = nan.
Proof. reflexivity. Qed.

Lemma div_nan_r a : div a nan = nan.
Proof. now destruct a. Qed.

Lemma mul_not_finite s x : is_finite x = false -> is_finite (mul s x) = false.
Proof. destruct x as [|[]| |]; try discriminate; now destruct s as [[]|[]| |[]]. Qed.

Lemma add_not_finite_r a b : is_finite b = false -> is_finite (add a b) = false.
Proof. destruct b as [|[]| |]; try discriminate; now destruct a as [[]|[]| |[]]. Qed.

Lemma add_not_finite_l a b : is_finite a = false -> is_finite (add a b) = false.
Proof. destruct a as [|[]| |]; try discriminate; now destruct b as [[]|[]| |[]]. Qed.

(** Only a positive finite number or [+inf] is [> 0]. *)
Lemma gt_zero_cases x :
  gt x zero = true ->
  x = S754_infinity false \/ exists m e, x = S754_finite false m e.
Proof. destruct x as [[]|[]| |[] m e]; try discriminate; eauto. Qed.

End binary64.

(** ** Divisions that signal nothing *)

Section fp_flags.
Import F64.

Lemma div_flags_nan_r x : div_flags x nan = no_flags.
Proof. now destruct x. Qed.

Lemma div_flags_self s m e :
  div_flags (S754_finite s m e) (S754_finite s m e) = no_flags.
Proof.
  unfold div_flags. fold (F64.div (S754_finite s m e) (S754_finite s m e)).
  rewrite div_self. cbn [is_finite one negb is_tiny]. 
  rewrite andb_false_r. reflexivity.
Qed.

Lemma div_inexact_one m e :
  bounded prec emax m e = true ->
  div_inexact m e 4503599627370496 (-52) = false.
Proof.
  intros H. unfold bounded in H. apply andb_prop in H as [Hc Hb].
  apply fexp_canonical in Hc. std_arith.
  unfold div_inexact, SFdiv_core_binary. cbn [Zdigits2 digits2_pos]. std_arith.
  change (Z.pos (Pos.succ _) + -52)%Z with 1%Z.
  replace (e - -52)%Z with (e + 52)%Z by lia.
  destruct (fexp_below m e Hc) as [He|He]; rewrite He.
  - replace (Z.min (e - 1) (e + 52)) with (e - 1)%Z by lia.
    replace (e + 52 - (e - 1))%Z with 53%Z by lia. cbv iota beta.
    rewrite Z.shiftl_mul_pow2 by lia.
    replace (Z.pos m * 2 ^ 53)%Z with (Z.pos m~0 * 4503599627370496)%Z by lia.
    rewrite div_eucl_exact by lia. rewrite new_location_0.
    unfold shr_fexp. cbn [Zdigits2 digits2_pos shr_record_of_loc]. std_arith.
    rewrite Pos2Z.inj_succ.
    replace (Z.succ (Z.pos (digits2_pos m)) + (e - 1))%Z
      with (Z.pos (digits2_pos m) + e)%Z by lia.
    rewrite Hc. replace (e - (e - 1))%Z with 1%Z by lia.
    reflexivity.
  - replace (Z.min e (e + 52)) with e by lia.
    replace (e + 52 - e)%Z with 52%Z by lia. cbv iota beta.
    rewrite Z.shiftl_mul_pow2 by lia.
    change (2 ^ 52)%Z with 4503599627370496%Z.
    rewrite div_eucl_exact by lia. rewrite new_location_0.
    unfold shr_fexp. cbn [Zdigits2 shr_record_of_loc]. std_arith.
    rewrite Hc, Z.sub_diag. reflexivity.
Qed.

Lemma div_flags_one_r x : valid x = true -> div_flags x one = no_flags.
Proof.
  destruct x as [s|s| |s m e]; try reflexivity.
  intros H. unfold div_flags, one.
  change (S754_finite false 4503599627370496 (-52)) with one.
  rewrite (div_one_r (S754_finite s m e) H).
  cbn [is_finite negb]. rewrite (div_inexact_one m e H). reflexivity.
Qed.
End fp_flags.

(** ** The sparse product, row by row *)

Section coo.

Implicit Types (x y : list float) (e : nat * nat * float).

Lemma coo_accum_length x y e : length (coo_accum x y e) = length y.
Proof.
  unfold coo_accum. destruct (y !! e.1.1), (x !! e.1.2); try done.
  apply length_insert.
Qed.

Lemma fold_coo_accum_length x es y :
  length (fold_left (coo_accum x) es y) = length y.
Proof.
  revert y. induction es as [|e es IH]; intros y; [done|].
  cbn. rewrite IH. apply coo_accum_length.
Qed.

Lemma coo_accum_lookup x y e r yr :
  y !! r = Some yr ->
  coo_accum x y e !! r = Some (row_step x r yr e).
Proof.
  intros Hr. unfold coo_accum, row_step.
  destruct (decide (e.1.1 = r)) as [->|Hne].
  - rewrite bool_decide_eq_true_2 by done. rewrite Hr.
    destruct (x !! e.1.2); [|done].
    apply list_lookup_insert_eq. by eapply lookup_lt_Some.
  - rewrite bool_decide_eq_false_2 by done.
    destruct (y !! e.1.1), (x !! e.1.2); try done.
    by rewrite list_lookup_insert_ne.
Qed.

Lemma fold_coo_accum_lookup x es y r yr :
  y !! r = Some yr ->
  fold_left (coo_accum x) es y !! r = Some (fold_left (row_step x r) es yr).
Proof.
  revert y yr. induction es as [|e es IH]; intros y yr Hr; [done|].
  cbn. apply IH. by apply coo_accum_lookup.
Qed.

Lemma coo_matvec_length A x : length (coo_matvec A x) = (coo_shape A).1.
Proof. unfold coo_matvec. rewrite fold_coo_accum_length. apply length_replicate. Qed.

(** Destination cell [r] holds the sum, in table order and starting from
    [0.0], of [S * x[col]] over the triplets of row [r]. *)
Lemma coo_matvec_lookup A x r :
  r < (coo_shape A).1 ->
  coo_matvec A x !! r = Some (row_sum (coo_entries A) x r).
Proof.
  intros Hr. unfold coo_matvec, row_sum.
  apply fold_coo_accum_lookup. by apply lookup_replicate_2.
Qed.

End coo.

(** ** [esmf_apply_weights] on well-shaped input *)

Section apply_weights.

Lemma size_of_app l1 l2 : size_of (l1 ++ l2) = size_of l1 * size_of l2.
Proof.
  unfold size_of. induction l1 as [|a l1 IH]; cbn; [lia|].
  rewrite IH. apply Nat.mul_assoc.
Qed.

Lemma wf_array_length {A} (a : ndarray A) n1 n2 :
  wf_array a ->
  drop (length (shape a) - 2) (shape a) = [n1; n2] ->
  length (data a) = size_of (take (length (shape a) - 2) (shape a)) * (n1 * n2).
Proof.
  intros Hwf Hh. rewrite Hwf.
  rewrite <- (take_drop (length (shape a) - 2) (shape a)) at 1.
  rewrite size_of_app, Hh. cbn. by rewrite Nat.mul_1_r.
Qed.

Lemma rows_length (W : coo_matrix) (rows : list (list float)) :
  length (mjoin (coo_matvec W <$> rows)) = length rows * (coo_shape W).1.
Proof.
  rewrite length_join, <- list_fmap_compose.
  rewrite (sum_list_fmap_same (coo_shape W).1); [done|].
  apply Forall_forall. intros x _. apply coo_matvec_length.
Qed.

(** The rows that [esmf_apply_weights] feeds to the sparse product. *)
Lemma esmf_apply_weights_ok W a shape_in shape_out w :
  flags_C_CONTIGUOUS a = true ->
  wf_array a ->
  drop (length (shape a) - 2) (shape a) = [shape_in.1; shape_in.2] ->
  shape_in.1 * shape_in.2 = (coo_shape W).2 ->
  shape_out.1 * shape_out.2 = (coo_shape W).1 ->
  0 < shape_in.1 * shape_in.2 ->
  esmf_apply_weights W a shape_in shape_out w =
  (inr (mk_ndarray
          (take (length (shape a) - 2) (shape a) ++ [shape_out.1; shape_out.2])
          (mjoin (coo_matvec W <$> batches (shape_in.1 * shape_in.2) a))
          C_layout), w).
Proof.
  intros Hc Hwf Hh Hin Hout Hpos.
  pose proof (wf_array_length a _ _ Hwf Hh) as Hlen.
  unfold esmf_apply_weights, bind. rewrite Hc. cbn [negb ret].
  rewrite bool_decide_eq_true_2 by done. cbn [py_assert ret].
  rewrite (proj2 (Nat.eqb_eq _ _) Hin), (proj2 (Nat.eqb_eq _ _) Hout). cbn [ret].
  unfold np_reshape_rows.
  rewrite (proj2 (Nat.eqb_neq _ _)) by lia.
  rewrite Hlen, Nat.Div0.mod_mul, Nat.div_mul by lia. cbn [orb negb Nat.eqb ret].
  unfold np_reshape. unfold batches. rewrite Hlen, Nat.div_mul by lia.
  rewrite rows_length, length_reshape, length_replicate, size_of_app.
  cbn [size_of fold_right]. rewrite <- Hout.
  rewrite (proj2 (Nat.eqb_eq _ _)) by lia. reflexivity.
Qed.

End apply_weights.

(** ** Cells of the flattened arrays *)

Section cells.

Lemma reshape_rows_length {A} (l : list A) B n :
  length l = B * n ->
  Forall (fun row => length row = n) (reshape (replicate B n) l).
Proof.
  revert l. induction B as [|B IH]; intros l Hl; cbn; [constructor|].
  constructor.
  - rewrite length_take. lia.
  - apply IH. rewrite length_drop. lia.
Qed.

(** Element [c] of row [b] of [a.reshape(-1, n)] is element [b * n + c] of
    [a]. *)
Lemma batches_lookup {A} (a : ndarray A) B n b c x :
  length (data a) = B * n -> 0 < n -> c < n ->
  data a !! (b * n + c) = Some x <->
  exists row, batches n a !! b = Some row /\ row !! c = Some x.
Proof.
  intros Hl Hn Hc. unfold batches. rewrite Hl, Nat.div_mul by lia.
  rewrite <- (join_reshape (replicate B n) (data a)) at 1
    by (rewrite sum_list_replicate; lia).
  apply join_lookup_Some_same_length'; [|done].
  by apply reshape_rows_length.
Qed.

Lemma batches_length {A} (a : ndarray A) B n :
  length (data a) = B * n -> 0 < n -> length (batches n a) = B.
Proof.
  intros Hl Hn. unfold batches.
  by rewrite length_reshape, length_replicate, Hl, Nat.div_mul by lia.
Qed.

Lemma batches_join {A} (a : ndarray A) B n :
  length (data a) = B * n -> 0 < n -> mjoin (batches n a) = data a.
Proof.
  intros Hl Hn. unfold batches. rewrite Hl, Nat.div_mul by lia.
  apply join_reshape. rewrite sum_list_replicate. lia.
Qed.

(** Cell [r] of batch [b] of the product. *)
Lemma product_cell W (rows : list (list float)) b r row :
  rows !! b = Some row -> r < (coo_shape W).1 ->
  mjoin (coo_matvec W <$> rows) !! (b * (coo_shape W).1 + r)
  = Some (row_sum (coo_entries W) row r).
Proof.
  intros Hb Hr.
  apply (join_lookup_Some_same_length' (coo_shape W).1); [|done|].
  - apply Forall_fmap, Forall_forall. intros x _. apply coo_matvec_length.
  - exists (coo_matvec W row). split.
    + by rewrite list_lookup_fmap, Hb.
    + by apply coo_matvec_lookup.
Qed.

(** A running sum that is not finite stays so, and not-a-number stays
    not-a-number. *)
Lemma row_sum_not_finite x r es acc :
  F64.is_finite acc = false ->
  F64.is_finite (fold_left (row_step x r) es acc) = false.
Proof.
  revert acc. induction es as [|e es IH]; intros acc Hacc; [done|].
  cbn. apply IH. unfold row_step.
  case_bool_decide; [|done]. destruct (x !! e.1.2); [|done].
  by apply add_not_finite_l.
Qed.

Lemma row_sum_nan x r es :
  fold_left (row_step x r) es F64.nan = F64.nan.
Proof.
  induction es as [|e es IH]; [done|].
  cbn. unfold row_step at 2.
  case_bool_decide; [|done]. by destruct (x !! e.1.2).
Qed.

Lemma row_sum_app x r es1 es2 :
  row_sum (es1 ++ es2) x r = fold_left (row_step x r) es2 (row_sum es1 x r).
Proof. unfold row_sum. apply fold_left_app. Qed.

(** A stored triplet, whatever its weight, passes a non-finite source value
    on to its destination cell. *)
Lemma row_sum_propagates es x r c s v :
  (r, c, s) ∈ es -> x !! c = Some v ->
  F64.is_finite v = false ->
  F64.is_finite (row_sum es x r) = false
  /\ (F64.isnan v = true -> row_sum es x r = F64.nan).
Proof.
  intros Hin Hv Hnf.
  apply list_elem_of_split in Hin as (es1 & es2 & ->).
  rewrite row_sum_app. cbn [fold_left]. unfold row_step at 2 4.
  cbn [fst snd]. rewrite bool_decide_eq_true_2 by done. rewrite Hv. split.
  - apply row_sum_not_finite, add_not_finite_r. by apply mul_not_finite.
  - intros Hnan. destruct v; try discriminate.
    change S754_nan with F64.nan.
    rewrite mul_nan_r, add_nan_r. apply row_sum_nan.
Qed.

End cells.

(** ** The checks of [esmf_apply_weights] *)

Section checks.

(** An array that is not C-contiguous never gets past the layout test: the
    call to [warnings.warn] fails on the name [warnings], which the module
    does not import.  Nothing is warned and nothing is computed. *)
Lemma esmf_apply_weights_not_contiguous W a shape_in shape_out w :
  flags_C_CONTIGUOUS a = false ->
  esmf_apply_weights W a shape_in shape_out w = (inl (NameError "warnings"), w).
Proof. intros H. unfold esmf_apply_weights, bind. by rewrite H. Qed.

(** On a C-contiguous array the three assertions are tried in order, and
    the first that fails raises with its own message, before the data are
    touched and without any other effect. *)
Lemma esmf_apply_weights_shape_errors W a shape_in shape_out w :
  flags_C_CONTIGUOUS a = true ->
  let shape_horiz := drop (length (shape a) - 2) (shape a) in
  (shape_horiz <> [shape_in.1; shape_in.2] ->
   esmf_apply_weights W a shape_in shape_out w =
   (inl (AssertionError (horizontal_shape_differs shape_horiz shape_in)), w))
  /\ (shape_horiz = [shape_in.1; shape_in.2] ->
      shape_in.1 * shape_in.2 <> (coo_shape W).2 ->
      esmf_apply_weights W a shape_in shape_out w =
      (inl (AssertionError weights_shape1_differs), w))
  /\ (shape_horiz = [shape_in.1; shape_in.2] ->
      shape_in.1 * shape_in.2 = (coo_shape W).2 ->
      shape_out.1 * shape_out.2 <> (coo_shape W).1 ->
      esmf_apply_weights W a shape_in shape_out w =
      (inl (AssertionError weights_shape0_differs), w)).
Proof.
  intros Hc shape_horiz. unfold esmf_apply_weights, bind. rewrite Hc.
  cbn [negb ret]. fold shape_horiz. repeat split.
  - intros Hne. by rewrite bool_decide_eq_false_2.
  - intros He Hne. rewrite bool_decide_eq_true_2 by done. cbn [py_assert ret].
    by rewrite (proj2 (Nat.eqb_neq _ _) Hne).
  - intros He Hin Hne. rewrite bool_decide_eq_true_2 by done. cbn [py_assert ret].
    rewrite (proj2 (Nat.eqb_eq _ _) Hin). cbn [ret].
    by rewrite (proj2 (Nat.eqb_neq _ _) Hne).
Qed.

(** C4 (fails on the code).  A Fortran-ordered [3 x 2] array handed to an
    operator for [2 x 2] grids violates the first precondition, yet what is
    raised is [NameError] for the missing [warnings] import, not the
    shape-mismatch assertion. *)
Theorem esmf_apply_weights_shape_mismatch_not_reported :
  esmf_apply_weights (identity_coo 4) (ones_3x2 F_layout) (2, 2) (2, 2) world0
  = (inl (NameError "warnings"), world0)
  /\ drop (length (shape (ones_3x2 F_layout)) - 2) (shape (ones_3x2 F_layout))
     <> [2; 2].
Proof. split; [by apply esmf_apply_weights_not_contiguous | discriminate]. Qed.

(** C5 (fails on the code).  The field [[1, 2], [3, 4]] in Fortran order,
    with the identity operator and matching shapes: the transform does not
    proceed and no warning reaches the log; [NameError] is raised. *)
Theorem esmf_apply_weights_layout_warning_raises :
  esmf_apply_weights (identity_coo 4) (field_1234 F_layout) (2, 2) (2, 2) world0
  = (inl (NameError "warnings"), world0)
  /\ warnings_log world0 = [].
Proof. split; [by apply esmf_apply_weights_not_contiguous | done]. Qed.

(** A strided view reaches [esmf_apply_weights] as it is when the transform
    does not renormalize, and fails there; when it renormalizes, [np.where]
    has copied it into a C-contiguous array first. *)
Example strided_view :
  regrid_dataarray half_covered
    {| da_data := mk_ndarray [1; 1] [F64.of_Z 5] C_strided; da_name := "field";
       da_dims := ["lat"; "lon"]; da_attrs := []; da_coords := [] |}
    false true world0
  = (inl (NameError "warnings"), world0)
  /\ result_data
       (regrid_dataarray half_covered
          {| da_data := mk_ndarray [1; 1] [F64.of_Z 5] C_strided; da_name := "field";
             da_dims := ["lat"; "lon"]; da_attrs := []; da_coords := [] |}
          true true world0)
     = Some [F64.of_Z 5; F64.nan].
Proof. split; reflexivity. Qed.

End checks.

(** ** Non-finite values *)

Section non_finite.

(** C6.  On input of the right shape the operation returns whatever the
    values are, and a source value that is not finite reaches every
    destination cell that has a stored triplet for it, zero weight
    included: the cell is not finite, and is not-a-number when the source
    value is. *)
Theorem esmf_apply_weights_non_finite W a shape_in shape_out w :
  flags_C_CONTIGUOUS a = true ->
  wf_array a ->
  drop (length (shape a) - 2) (shape a) = [shape_in.1; shape_in.2] ->
  shape_in.1 * shape_in.2 = (coo_shape W).2 ->
  shape_out.1 * shape_out.2 = (coo_shape W).1 ->
  0 < shape_in.1 * shape_in.2 ->
  exists out,
    esmf_apply_weights W a shape_in shape_out w = (inr out, w)
    /\ forall b r c s v,
         (r, c, s) ∈ coo_entries W ->
         r < (coo_shape W).1 -> c < (coo_shape W).2 ->
         data a !! (b * (coo_shape W).2 + c) = Some v ->
         F64.is_finite v = false ->
         exists y,
           data out !! (b * (coo_shape W).1 + r) = Some y
           /\ F64.is_finite y = false
           /\ (F64.isnan v = true -> y = F64.nan).
Proof.
  intros Hc Hwf Hh Hin Hout Hpos.
  eexists. split; [by apply esmf_apply_weights_ok|].
  intros b r c s v Hin_es Hr Hcol Hv Hnf. cbn [data].
  pose proof (wf_array_length a _ _ Hwf Hh) as Hlen.
  rewrite Hin in Hlen, Hpos |- *.
  apply (batches_lookup a _ _ b c v Hlen Hpos Hcol) in Hv as (row & Hrow & Hv).
  exists (row_sum (coo_entries W) row r). split; [by apply product_cell|].
  by apply (row_sum_propagates _ _ r c s v).
Qed.

Lemma esmf_apply_weights_non_finite_witness :
  flags_C_CONTIGUOUS (mk_ndarray [1; 1] [F64.nan] C_layout) = true
  /\ exists out,
       esmf_apply_weights zero_weight_coo (mk_ndarray [1; 1] [F64.nan] C_layout)
                          (1, 1) (1, 1) world0 = (inr out, world0)
       /\ forall b r c s v,
            (r, c, s) ∈ coo_entries zero_weight_coo ->
            r < (coo_shape zero_weight_coo).1 -> c < (coo_shape zero_weight_coo).2 ->
            data (mk_ndarray [1; 1] [F64.nan] C_layout)
              !! (b * (coo_shape zero_weight_coo).2 + c) = Some v ->
            F64.is_finite v = false ->
            exists y,
              data out !! (b * (coo_shape zero_weight_coo).1 + r) = Some y
              /\ F64.is_finite y = false
              /\ (F64.isnan v = true -> y = F64.nan).
Proof.
  split; [reflexivity|].
  apply (esmf_apply_weights_non_finite zero_weight_coo
           (mk_ndarray [1; 1] [F64.nan] C_layout) (1, 1) (1, 1) world0);
    try reflexivity.
  cbn. lia.
Defined.

(** The operator is sparse: a source cell without a stored triplet is not
    read, so a not-a-number there reaches no destination cell. *)
Example nan_without_triplet :
  coo_matvec (mk_coo (2, 2) [(0, 0, F64.one)]) [F64.one; F64.nan]
  = [F64.one; F64.zero].
Proof. reflexivity. Qed.

End non_finite.

(** ** The identity operator *)

Section identity.

Lemma through_identity_same v : F64.same (through_identity v) v = true.
Proof.
  destruct v as [[]|[]| |[] m e]; try reflexivity;
    unfold F64.same, F64.eqb, SFeqb; cbn; std_arith;
    by rewrite Z.compare_refl, Pos.compare_cont_refl.
Qed.

Lemma row_step_skip x r es acc :
  (forall e, e ∈ es -> e.1.1 <> r) ->
  fold_left (row_step x r) es acc = acc.
Proof.
  revert acc. induction es as [|e es IH]; intros acc H; [done|].
  cbn. rewrite IH by (intros; apply H; by right).
  unfold row_step. rewrite bool_decide_eq_false_2; [done|].
  apply H. by left.
Qed.

(** A row with exactly one stored triplet. *)
Lemma row_sum_single es x r e :
  NoDup es -> e ∈ es -> e.1.1 = r ->
  (forall e', e' ∈ es -> e'.1.1 = r -> e' = e) ->
  row_sum es x r = row_step x r F64.zero e.
Proof.
  intros Hnd Hin Hr Huniq.
  apply list_elem_of_split in Hin as (es1 & es2 & ->).
  apply NoDup_app in Hnd as (_ & Hnd1 & Hnd2).
  apply NoDup_cons in Hnd2 as [Hnd2 _].
  rewrite row_sum_app. cbn [fold_left]. unfold row_sum.
  rewrite (row_step_skip x r es1).
  - apply row_step_skip. intros e' He' Heq.
    assert (e' = e) as ->
      by (apply Huniq; [rewrite elem_of_app, elem_of_cons; auto|done]). done.
  - intros e' He' Heq.
    assert (e' = e) as ->
      by (apply Huniq; [rewrite elem_of_app, elem_of_cons; auto|done]).
    apply (Hnd1 e); [done|by left].
Qed.

Lemma diagonal_NoDup n : NoDup (diagonal n).
Proof.
  unfold diagonal. apply NoDup_fmap_2; [|apply NoDup_seq].
  intros i j [=]. done.
Qed.

Lemma elem_of_diagonal n e :
  e ∈ diagonal n <-> exists i, e = (i, i, F64.one) /\ i < n.
Proof.
  unfold diagonal. rewrite list_elem_of_fmap. split.
  - intros (i & -> & Hi). apply elem_of_seq in Hi. exists i. split; [done|lia].
  - intros (i & -> & Hi). exists i. split; [done|]. apply elem_of_seq. lia.
Qed.

Lemma identity_row es n x r v :
  es ≡ₚ diagonal n -> r < n -> x !! r = Some v -> F64.valid v = true ->
  row_sum es x r = through_identity v.
Proof.
  intros Hp Hr Hv Hvalid.
  rewrite (row_sum_single es x r (r, r, F64.one)).
  - unfold row_step. cbn [fst snd]. rewrite bool_decide_eq_true_2 by done.
    rewrite Hv, mul_one_l by done. apply add_zero_l.
  - rewrite Hp. apply diagonal_NoDup.
  - rewrite Hp. apply elem_of_diagonal. eauto.
  - done.
  - intros e'. rewrite Hp, elem_of_diagonal. intros (i & -> & _) Heq.
    cbn in Heq. by subst.
Qed.

Lemma identity_matvec W n x :
  coo_shape W = (n, n) -> coo_entries W ≡ₚ diagonal n ->
  length x = n -> Forall (fun v => F64.valid v = true) x ->
  coo_matvec W x = through_identity <$> x.
Proof.
  intros Hs Hp Hl Hvalid. apply list_eq. intros r.
  rewrite list_lookup_fmap.
  destruct (decide (r < n)) as [Hr|Hr].
  - rewrite coo_matvec_lookup by (rewrite Hs; done).
    destruct (lookup_lt_is_Some_2 x r) as [v Hv]; [lia|].
    rewrite Hv. cbn. f_equal.
    apply (identity_row _ n _ _ v); try done.
    by eapply (proj1 (Forall_lookup _ _) Hvalid).
  - rewrite !lookup_ge_None_2; [done| |]; [lia|].
    rewrite coo_matvec_length, Hs. cbn. lia.
Qed.

Lemma join_fmap_fmap {A B} (f : A -> B) (ls : list (list A)) :
  mjoin (fmap f <$> ls) = f <$> mjoin ls.
Proof.
  induction ls as [|l ls IH]; [done|]. csimpl. by rewrite fmap_app, IH.
Qed.

End identity.

(** ** The transform, step by step *)

Section transform.

Lemma fmap_reshape {A B} (f : A -> B) szs (l : list A) :
  reshape szs (f <$> l) = (fmap f : list A -> list B) <$> reshape szs l.
Proof.
  revert l. induction szs as [|sz szs IH]; intros l; [done|].
  cbn. by rewrite <- fmap_take, <- fmap_drop, IH.
Qed.

Lemma batches_fmap {A B} (f : A -> B) n (a : ndarray A) (a' : ndarray B) :
  data a' = f <$> data a ->
  batches n a' = (fmap f : list A -> list B) <$> batches n a.
Proof.
  intros H. unfold batches. by rewrite H, length_fmap, fmap_reshape.
Qed.

Lemma filled_data a :
  data (np_where_sa (np_isnan a) F64.zero a) = fill_missing <$> data a.
Proof. cbn. by rewrite zip_with_fmap_l, zip_with_diag. Qed.

Lemma ones_data a :
  data (np_where_ss (np_isnan a) F64.zero F64.one) = indicator <$> data a.
Proof. cbn. by rewrite <- list_fmap_compose. Qed.

Lemma keep_order_idem l : keep_order (keep_order l) = keep_order l.
Proof. by destruct l. Qed.

(** The first product of the transform. *)
Lemma remap_filled self a w :
  wf_regridder self -> field_fits self a true ->
  esmf_apply_weights (weights self) (np_where_sa (np_isnan a) F64.zero a)
                     (dims_src self) (dims_dst self) w
  = (inr (mk_ndarray (out_shape self a) (raw_array self a) C_layout), w).
Proof.
  intros [Hw _] (Hwf & Hh & Hpos & Hord).
  rewrite esmf_apply_weights_ok.
  - unfold raw_array. by rewrite (batches_fmap fill_missing _ a) by apply filled_data.
  - unfold flags_C_CONTIGUOUS. cbn. by rewrite keep_order_idem, Hord.
  - unfold wf_array. rewrite filled_data, length_fmap. apply Hwf.
  - apply Hh.
  - by rewrite Hw.
  - by rewrite Hw.
  - apply Hpos.
Qed.

(** The product of the indicator array. *)
Lemma remap_ones self a w :
  wf_regridder self -> field_fits self a true ->
  esmf_apply_weights (weights self) (np_where_ss (np_isnan a) F64.zero F64.one)
                     (dims_src self) (dims_dst self) w
  = (inr (mk_ndarray (out_shape self a) (coverage_array self a) C_layout), w).
Proof.
  intros [Hw _] (Hwf & Hh & Hpos & Hord).
  rewrite esmf_apply_weights_ok.
  - unfold coverage_array. by rewrite (batches_fmap indicator _ a) by apply ones_data.
  - unfold flags_C_CONTIGUOUS. cbn. by rewrite keep_order_idem, Hord.
  - unfold wf_array. rewrite ones_data, length_fmap. apply Hwf.
  - apply Hh.
  - by rewrite Hw.
  - by rewrite Hw.
  - apply Hpos.
Qed.

(** Dividing by the coverage with its non-positive entries replaced, then
    selecting on the replaced coverage again, is [renormalized]. *)
Lemma renormalized_zip (raw cov : list float) :
  zip_with (fun (b : bool) v => if b then v else F64.nan)
           ((fun v => F64.gt v F64.zero) <$> (positive_or_nan <$> cov))
           (zip_with F64.div raw (positive_or_nan <$> cov))
  = zip_with renormalized raw cov.
Proof.
  revert raw. induction cov as [|c cov IH]; intros [|r raw]; try done.
  cbn. rewrite IH. f_equal.
  unfold renormalized, positive_or_nan. by destruct (F64.gt c F64.zero) eqn:E; rewrite ?E.
Qed.

Lemma positive_or_nan_zip (cov : list float) :
  zip_with (fun (b : bool) v => if b then v else F64.nan)
           ((fun v => F64.gt v F64.zero) <$> cov) cov
  = positive_or_nan <$> cov.
Proof. by rewrite zip_with_fmap_l, zip_with_diag. Qed.

(** The renormalized transform, reduced to the report of the flags that the
    division raised. *)
Lemma regrid_dataarray_renormalize self da_in apply_mask w :
  wf_regridder self -> field_fits self (da_data da_in) true ->
  regrid_dataarray self da_in true apply_mask w =
  match fp_handle (renormalize_flags self (da_data da_in))
                  (with_errstate (invalid_ignored (errstate w)) w) with
  | (inl e, w') => (inl e, w')
  | (inr _, w') =>
      (inr (finish self apply_mask
              (reform da_in (mk_ndarray (out_shape self (da_data da_in))
                                        (renormalized_array self (da_data da_in))
                                        C_layout))),
       with_errstate (errstate w) w')
  end.
Proof.
  intros Hself Hfit. unfold regrid_dataarray.
  unfold bind at 1. rewrite remap_filled by done.
  unfold bind at 1. unfold bind at 1. unfold np_seterr_invalid at 1.
  unfold bind at 1. rewrite remap_ones by done.
  unfold bind at 1. unfold np_divide at 1. unfold bind at 1.
  cbn [data shape np_where_as np_greater]. rewrite positive_or_nan_zip.
  fold (renormalize_flags self (da_data da_in)).
  change {| errstate := _; warnings_log := warnings_log w |}
    with (with_errstate (invalid_ignored (errstate w)) w).
  destruct (fp_handle _ _) as [[e|[]] w']; [done|].
  unfold ret, bind, np_seterr, np_where_as, np_greater.
  cbn [data shape order keep_order].
  rewrite positive_or_nan_zip, renormalized_zip. reflexivity.
Qed.

End transform.

(** ** Reports of floating-point flags *)

Section reports.

Lemma fp_report_errstate what mode raised w r w' :
  fp_report what mode raised w = (r, w') -> errstate w' = errstate w.
Proof.
  unfold fp_report. destruct raised; [|by intros [= _ <-]].
  destruct mode; by intros [= _ <-].
Qed.

(** Reporting never changes the error policy. *)
Lemma fp_handle_errstate fl w r w' :
  fp_handle fl w = (r, w') -> errstate w' = errstate w.
Proof.
  unfold fp_handle, bind.
  destruct (fp_report "divide by zero" _ _ w) as [[e1|[]] w1] eqn:E1;
    [intros [= _ <-]; by eapply fp_report_errstate|].
  destruct (fp_report "overflow" _ _ w1) as [[e2|[]] w2] eqn:E2;
    [intros [= _ <-]; apply fp_report_errstate in E1, E2; congruence|].
  destruct (fp_report "underflow" _ _ w2) as [[e3|[]] w3] eqn:E3;
    [intros [= _ <-]; apply fp_report_errstate in E1, E2, E3; congruence|].
  intros E4. apply fp_report_errstate in E1, E2, E3, E4. congruence.
Qed.

Lemma fp_handle_no_flags w : fp_handle no_flags w = (inr tt, w).
Proof. reflexivity. Qed.

Lemma fp_report_returns what mode raised w :
  mode <> err_raise \/ raised = false ->
  exists w', fp_report what mode raised w = (inr tt, w').
Proof.
  unfold fp_report. intros [H| ->]; [|by eexists].
  destruct raised; [|by eexists]. destruct mode; try congruence; by eexists.
Qed.

(** With invalid-value reports off, nothing raises unless overflow or
    underflow is set to raise, or a division by zero was flagged. *)
Lemma fp_handle_returns fl w :
  no_raise (errstate w) -> err_invalid (errstate w) = err_ignore ->
  fp_divide fl = false ->
  exists w', fp_handle fl w = (inr tt, w').
Proof.
  intros [Ho Hu] Hi Hd. unfold fp_handle, bind. rewrite Hd, Hi.
  cbn [fp_report ret].
  destruct (fp_report_returns "overflow" (err_over (errstate w)) (fp_over fl) w)
    as [w2 ->]; [by left|].
  destruct (fp_report_returns "underflow" (err_under (errstate w)) (fp_under fl) w2)
    as [w3 ->]; [by left|].
  destruct (fp_invalid fl); by eexists.
Qed.

Lemma div_flags_no_divide x y :
  (forall s, y <> S754_zero s) -> fp_divide (div_flags x y) = false.
Proof.
  intros Hy. destruct x, y; try reflexivity; by destruct (Hy s0).
Qed.

Lemma positive_or_nan_not_zero c s : positive_or_nan c <> S754_zero s.
Proof.
  unfold positive_or_nan. destruct (F64.gt c F64.zero) eqn:E; [|done].
  intros ->. by destruct s.
Qed.

Lemma flags_fold_no_divide (xs ys : list float) :
  Forall (fun y => forall s, y <> S754_zero s) ys ->
  fp_divide (fold_right flags_or no_flags (zip_with div_flags xs ys)) = false.
Proof.
  intros H. revert xs. induction H as [|y ys Hy _ IH]; intros [|x xs]; try done.
  cbn. by rewrite IH, div_flags_no_divide.
Qed.

(** The divisor of the renormalization is never zero, so the division never
    flags a division by zero. *)
Lemma renormalize_flags_no_divide self a :
  fp_divide (renormalize_flags self a) = false.
Proof.
  apply flags_fold_no_divide, Forall_fmap, Forall_forall.
  intros c _ s. apply positive_or_nan_not_zero.
Qed.

Lemma flags_fold_none (xs ys : list float) :
  (forall i x y, xs !! i = Some x -> ys !! i = Some y -> div_flags x y = no_flags) ->
  fold_right flags_or no_flags (zip_with div_flags xs ys) = no_flags.
Proof.
  revert ys. induction xs as [|x xs IH]; intros [|y ys] H; try done.
  cbn. rewrite IH by (intros i; apply (H (S i))).
  by rewrite (H 0 x y).
Qed.

End reports.

(** ** The cells of the transformed field *)

Section output_cells.

Lemma field_fits_length self a rn :
  field_fits self a rn ->
  length (data a) = size_of (take (length (shape a) - 2) (shape a)) * n_src self.
Proof. intros (Hwf & Hh & _). by apply wf_array_length. Qed.

Lemma batch_index self a rn b xs :
  field_fits self a rn -> batches (n_src self) a !! b = Some xs ->
  b < size_of (take (length (shape a) - 2) (shape a)).
Proof.
  intros Hfit Hb. apply lookup_lt_Some in Hb.
  rewrite (batches_length a _ _ (field_fits_length _ _ _ Hfit)) in Hb; [done|].
  apply Hfit.
Qed.

Lemma raw_array_cell self a b xs k :
  wf_regridder self -> batches (n_src self) a !! b = Some xs -> k < n_dst self ->
  raw_array self a !! (b * n_dst self + k) = Some (raw_cell self xs k).
Proof.
  intros [Hw _] Hb Hk. unfold raw_array, raw_cell.
  replace (n_dst self) with (coo_shape (weights self)).1 in * by by rewrite Hw.
  apply product_cell; [|done]. by rewrite list_lookup_fmap, Hb.
Qed.

Lemma coverage_array_cell self a b xs k :
  wf_regridder self -> batches (n_src self) a !! b = Some xs -> k < n_dst self ->
  coverage_array self a !! (b * n_dst self + k) = Some (coverage_cell self xs k).
Proof.
  intros [Hw _] Hb Hk. unfold coverage_array, coverage_cell.
  replace (n_dst self) with (coo_shape (weights self)).1 in * by by rewrite Hw.
  apply product_cell; [|done]. by rewrite list_lookup_fmap, Hb.
Qed.

Lemma renormalized_array_cell self a b xs k :
  wf_regridder self -> batches (n_src self) a !! b = Some xs -> k < n_dst self ->
  renormalized_array self a !! (b * n_dst self + k)
  = Some (renormalized (raw_cell self xs k) (coverage_cell self xs k)).
Proof.
  intros Hself Hb Hk. unfold renormalized_array.
  rewrite lookup_zip_with.
  by rewrite (raw_array_cell _ _ _ xs), (coverage_array_cell _ _ _ xs).
Qed.

Lemma out_shape_batch self a :
  take (length (out_shape self a) - 2) (out_shape self a)
  = take (length (shape a) - 2) (shape a).
Proof.
  unfold out_shape. rewrite length_app. cbn [length].
  replace (length (take (length (shape a) - 2) (shape a)) + 2 - 2)
    with (length (take (length (shape a) - 2) (shape a))) by lia.
  by rewrite take_app_length.
Qed.

(** The last step: the mask, or nothing. *)
Lemma finish_cell self apply_mask da_in a vals b k v m :
  length (mask_cells self) = n_dst self ->
  b < size_of (take (length (shape a) - 2) (shape a)) -> k < n_dst self ->
  vals !! (b * n_dst self + k) = Some v ->
  mask_cells self !! k = Some m ->
  data (da_data (finish self apply_mask
                   (reform da_in (mk_ndarray (out_shape self a) vals C_layout))))
    !! (b * n_dst self + k)
  = Some (if apply_mask then masked m v else v).
Proof.
  intros Hm Hb Hk Hv Hmk. destruct apply_mask; [|done].
  cbn [finish da_where reform da_data data shape].
  rewrite out_shape_batch, lookup_zip_with, Hv. cbn.
  fold (mask_cells self).
  assert (mjoin (replicate (size_of (take (length (shape a) - 2) (shape a)))
                           (mask_cells self)) !! (b * n_dst self + k) = Some m) as ->.
  { apply (join_lookup_Some_same_length' (n_dst self)); [|done|].
    - by apply Forall_replicate.
    - exists (mask_cells self). split; [by apply lookup_replicate_2|done]. }
  reflexivity.
Qed.

End output_cells.

(** ** Renormalization *)

Section renormalization.

(** The sample regridders are what the constructor builds. *)
Example half_covered_built :
  regridder_init "src.nc" "dst.nc" grid_1x1 grid_2x1 one_weight world0
  = (inr half_covered, world0).
Proof. reflexivity. Qed.

Example signed_weights_built :
  regridder_init "src.nc" "dst.nc"
    {| grid_dims := (2, 1); grid_imask := [1%Z; 1%Z] |} grid_1x1
    {| row_col_S := [(1%Z, 1%Z, F64.one); (1%Z, 2%Z, minus_half)] |} world0
  = (inr signed_weights, world0).
Proof. reflexivity. Qed.

Lemma row_sum_absent es x k :
  (forall e, e ∈ es -> e.1.1 <> k) -> row_sum es x k = F64.zero.
Proof. apply row_step_skip. Qed.

(** C1.  A renormalized transform of a fitting field, under a policy that
    does not raise on overflow or underflow, returns; and in its result,
    for every batch and destination cell: where the coverage is not positive
    (zero included) the cell is not-a-number, whatever the mask, and its
    division flags nothing; where the coverage is positive the cell is the
    raw value divided by the coverage (then masked, if asked); and a cell
    with no triplet in the table has coverage [0.0], hence is
    not-a-number. *)
Theorem regrid_dataarray_renormalized self da apply_mask w :
  wf_regridder self ->
  field_fits self (da_data da) true ->
  no_raise (errstate w) ->
  exists out w',
    regrid_dataarray self da true apply_mask w = (inr out, w')
    /\ forall b xs k,
         batches (n_src self) (da_data da) !! b = Some xs -> k < n_dst self ->
         let raw := raw_cell self xs k in
         let cov := coverage_cell self xs k in
         exists m v,
           mask_cells self !! k = Some m
           /\ data (da_data out) !! (b * n_dst self + k) = Some v
           /\ (F64.gt cov F64.zero = false ->
               v = F64.nan /\ div_flags raw (positive_or_nan cov) = no_flags)
           /\ (F64.gt cov F64.zero = true ->
               v = if apply_mask then masked m (F64.div raw cov) else F64.div raw cov)
           /\ ((forall e, e ∈ coo_entries (weights self) -> e.1.1 <> k) ->
               cov = F64.zero /\ v = F64.nan).
Proof.
  intros Hself Hfit Hpol.
  rewrite regrid_dataarray_renormalize by done.
  destruct (fp_handle_returns (renormalize_flags self (da_data da))
              (with_errstate (invalid_ignored (errstate w)) w))
    as [w1 Hw1]; [done|done|apply renormalize_flags_no_divide|].
  rewrite Hw1. eexists _, _. split; [reflexivity|].
  intros b xs k Hb Hk raw cov.
  destruct (lookup_lt_is_Some_2 (mask_cells self) k) as [m Hm];
    [by rewrite (proj2 Hself)|].
  exists m. eexists. split; [done|]. split.
  { apply finish_cell; try done.
    - apply Hself.
    - by eapply batch_index.
    - by apply renormalized_array_cell. }
  fold raw cov. unfold renormalized, positive_or_nan.
  assert (Hnan : forall z, masked z F64.nan = F64.nan)
    by (intros z; unfold masked; by destruct (z =? 0)%Z).
  split; [|split].
  - intros Hle. rewrite Hle. split; [|apply div_flags_nan_r].
    by destruct apply_mask; rewrite ?Hnan.
  - intros Hgt. by rewrite Hgt.
  - intros Habsent. unfold cov, coverage_cell.
    rewrite row_sum_absent by done. split; [done|].
    cbn. by destruct apply_mask; rewrite ?Hnan.
Qed.

Lemma regrid_dataarray_renormalized_witness :
  wf_regridder half_covered
  /\ exists out w',
       regrid_dataarray half_covered (field_of [1; 1] [F64.of_Z 5]) true true world0
       = (inr out, w')
       /\ forall b xs k,
            batches (n_src half_covered)
                    (da_data (field_of [1; 1] [F64.of_Z 5])) !! b = Some xs ->
            k < n_dst half_covered ->
            let raw := raw_cell half_covered xs k in
            let cov := coverage_cell half_covered xs k in
            exists m v,
              mask_cells half_covered !! k = Some m
              /\ data (da_data out) !! (b * n_dst half_covered + k) = Some v
              /\ (F64.gt cov F64.zero = false ->
                  v = F64.nan /\ div_flags raw (positive_or_nan cov) = no_flags)
              /\ (F64.gt cov F64.zero = true ->
                  v = masked m (F64.div raw cov))
              /\ ((forall e, e ∈ coo_entries (weights half_covered) -> e.1.1 <> k) ->
                  cov = F64.zero /\ v = F64.nan).
Proof.
  assert (Hwf : wf_regridder half_covered) by (split; reflexivity).
  split; [exact Hwf|].
  apply (regrid_dataarray_renormalized half_covered
           (field_of [1; 1] [F64.of_Z 5]) true world0 Hwf).
  - repeat split; cbn; lia.
  - split; discriminate.
Defined.

End renormalization.

(** ** The constructor *)

Section constructor.

Lemma omap_lookup_all {A B} (f : A -> option B) (l : list A) i x :
  Forall (fun a => is_Some (f a)) l -> l !! i = Some x -> omap f l !! i = f x.
Proof.
  intros H. revert i. induction H as [|a l [y Hy] _ IH]; intros i Hi; [done|].
  cbn. rewrite Hy. destruct i as [|i]; cbn in *; [congruence|by apply IH].
Qed.

Lemma omap_length_all {A B} (f : A -> option B) (l : list A) :
  Forall (fun a => is_Some (f a)) l -> length (omap f l) = length l.
Proof.
  induction 1 as [|a l [y Hy] _ IH]; [done|]. cbn. rewrite Hy. cbn. by rewrite IH.
Qed.

Lemma transpose2_index r c k : k < r * c -> (k mod r) * c + k / r < r * c.
Proof.
  intros Hk. assert (0 < r) by nia.
  pose proof (Nat.mod_upper_bound k r ltac:(lia)).
  assert (k / r < c) by (apply Nat.Div0.div_lt_upper_bound; lia). nia.
Qed.

Lemma transpose2_all {A} r c (l : list A) :
  length l = r * c ->
  Forall (fun k => is_Some (l !! ((k mod r) * c + k / r))) (seq 0 (r * c)).
Proof.
  intros Hl. apply Forall_forall. intros k Hk. apply elem_of_seq in Hk.
  apply lookup_lt_is_Some_2. rewrite Hl. apply transpose2_index. lia.
Qed.

Lemma transpose2_length {A} r c (l : list A) :
  length l = r * c -> length (transpose2 r c l) = r * c.
Proof.
  intros Hl. unfold transpose2.
  by rewrite omap_length_all, length_seq by by apply transpose2_all.
Qed.

Lemma transpose2_lookup {A} r c (l : list A) k :
  length l = r * c -> k < r * c ->
  transpose2 r c l !! k = l !! ((k mod r) * c + k / r).
Proof.
  intros Hl Hk. unfold transpose2.
  apply (omap_lookup_all (fun k => l !! ((k mod r) * c + k / r)) _ k k);
    [by apply transpose2_all|].
  by apply lookup_seq_lt.
Qed.

(** Transposing twice gives the array back. *)
Lemma transpose2_involutive {A} r c (l : list A) :
  length l = r * c -> transpose2 c r (transpose2 r c l) = l.
Proof.
  intros Hl. apply list_eq. intros k.
  destruct (decide (k < r * c)) as [Hk|Hk].
  - assert (0 < c) by nia. assert (0 < r) by nia.
    rewrite transpose2_lookup
      by (rewrite ?transpose2_length by done; lia).
    rewrite transpose2_lookup;
      [|done|rewrite (Nat.mul_comm r c); apply transpose2_index; lia].
    f_equal.
    assert (k / c < r) by (apply Nat.Div0.div_lt_upper_bound; lia).
    rewrite (Nat.add_comm (k mod c * r)), Nat.Div0.mod_add, Nat.div_add by lia.
    rewrite (Nat.mod_small (k / c) r), (Nat.div_small (k / c) r) by done.
    pose proof (Nat.div_mod_eq k c). lia.
  - rewrite !lookup_ge_None_2; [done|lia|].
    rewrite transpose2_length; [lia|]. rewrite transpose2_length by done. lia.
Qed.

Lemma T2_involutive {A} (m : array2 A) :
  length (a2_data m) = (a2_shape m).1 * (a2_shape m).2 -> T2 (T2 m) = m.
Proof.
  destruct m as [[r c] l]. cbn. intros Hl. unfold T2. cbn.
  by rewrite transpose2_involutive.
Qed.

Lemma existsb_none {A} (p : A -> bool) (l : list A) :
  Forall (fun a => p a = false) l -> existsb p l = false.
Proof. induction 1 as [|a l Ha _ IH]; [done|]. cbn. by rewrite Ha, IH. Qed.

(** What the constructor leaves in the regridder it returns. *)
Lemma regridder_init_inv src_name dst_name src dst mf w self w' :
  regridder_init src_name dst_name src dst mf w = (inr self, w') ->
  w' = w
  /\ dims_src self = prod_swap (grid_dims src)
  /\ dims_dst self = prod_swap (grid_dims dst)
  /\ mask_cells self = grid_imask dst
  /\ coo_entries (weights self)
     = (fun t : Z * Z * float => (Z.to_nat (t.1.1 - 1), Z.to_nat (t.1.2 - 1), t.2))
         <$> row_col_S mf
  /\ wf_regridder self.
Proof.
  unfold regridder_init, bind, np_reshape2.
  destruct (length (grid_imask dst) =? _) eqn:Hlen; [|discriminate].
  apply Nat.eqb_eq in Hlen. cbn [ret].
  unfold sps_coo_matrix.
  repeat (match goal with |- context [existsb ?p ?l] => destruct (existsb p l) end;
          [discriminate|]).
  cbn [ret]. intros [= <- <-].
  unfold wf_regridder, mask_cells, n_dst, n_src. cbn.
  rewrite T2_involutive by done. cbn.
  repeat split; try done.
  by rewrite <- list_fmap_compose.
Qed.

End constructor.

(** ** The mask *)

Section mask.

(** The transform without renormalization. *)
Lemma regrid_dataarray_plain self da_in apply_mask w :
  wf_regridder self -> field_fits self (da_data da_in) false ->
  regrid_dataarray self da_in false apply_mask w =
  (inr (finish self apply_mask
          (reform da_in (mk_ndarray (out_shape self (da_data da_in))
                                    (remapped_array self (da_data da_in))
                                    C_layout))), w).
Proof.
  intros [Hw Hm] (Hwf & Hh & Hpos & Hord). unfold regrid_dataarray.
  unfold bind at 1. rewrite esmf_apply_weights_ok; try done.
  - unfold flags_C_CONTIGUOUS. by rewrite Hord.
  - by rewrite Hw.
  - by rewrite Hw.
Qed.

Lemma remapped_array_cell self a b xs k :
  wf_regridder self -> batches (n_src self) a !! b = Some xs -> k < n_dst self ->
  remapped_array self a !! (b * n_dst self + k)
  = Some (row_sum (coo_entries (weights self)) xs k).
Proof.
  intros [Hw _] Hb Hk. unfold remapped_array.
  replace (n_dst self) with (coo_shape (weights self)).1 in * by by rewrite Hw.
  by apply product_cell.
Qed.

(** The unmasked and the masked result of one transform, cell by cell. *)
Lemma finish_cells self da_in a vals b k v :
  wf_regridder self ->
  b < size_of (take (length (shape a) - 2) (shape a)) -> k < n_dst self ->
  vals !! (b * n_dst self + k) = Some v ->
  exists m,
    mask_cells self !! k = Some m
    /\ data (da_data (finish self false
                        (reform da_in (mk_ndarray (out_shape self a) vals C_layout))))
         !! (b * n_dst self + k) = Some v
    /\ data (da_data (finish self true
                        (reform da_in (mk_ndarray (out_shape self a) vals C_layout))))
         !! (b * n_dst self + k) = Some (masked m v).
Proof.
  intros [Hw Hm] Hb Hk Hv.
  destruct (lookup_lt_is_Some_2 (mask_cells self) k) as [m Hmk]; [by rewrite Hm|].
  exists m. split; [done|]. split.
  - by apply (finish_cell self false da_in a vals b k v m).
  - by apply (finish_cell self true da_in a vals b k v m).
Qed.

(** C8.  For a regridder built by the constructor, a fitting field and
    either setting of [renormalize]: the transform returns with and without
    [apply_mask], and in every batch, at every destination cell, the
    unmasked result holds the computed value while the masked result holds
    not-a-number where the destination grid's [grid_imask] is 0 and the
    computed value elsewhere. *)
Theorem regrid_dataarray_mask
    src_name dst_name src dst mf w0 self w1 da renormalize w :
  regridder_init src_name dst_name src dst mf w0 = (inr self, w1) ->
  field_fits self (da_data da) renormalize ->
  (renormalize = true -> no_raise (errstate w)) ->
  exists computed out w',
    regrid_dataarray self da renormalize false w = (inr computed, w')
    /\ regrid_dataarray self da renormalize true w = (inr out, w')
    /\ forall b k,
         b < size_of (take (length (shape (da_data da)) - 2) (shape (da_data da))) ->
         k < n_dst self ->
         exists m v,
           grid_imask dst !! k = Some m
           /\ data (da_data computed) !! (b * n_dst self + k) = Some v
           /\ data (da_data out) !! (b * n_dst self + k)
              = Some (if (m =? 0)%Z then F64.nan else v).
Proof.
  intros Hinit Hfit Hpol.
  apply regridder_init_inv in Hinit as (_ & _ & _ & Hmask & _ & Hself).
  rewrite <- Hmask.
  assert (Hrow : forall b,
    b < size_of (take (length (shape (da_data da)) - 2) (shape (da_data da))) ->
    exists xs, batches (n_src self) (da_data da) !! b = Some xs).
  { intros b Hb. apply lookup_lt_is_Some_2.
    rewrite (batches_length _ _ _ (field_fits_length _ _ _ Hfit)); [done|].
    apply Hfit. }
  destruct renormalize.
  - rewrite !regrid_dataarray_renormalize by done.
    destruct (fp_handle_returns (renormalize_flags self (da_data da))
                (with_errstate (invalid_ignored (errstate w)) w))
      as [w2 Hw2]; [by apply Hpol|done|apply renormalize_flags_no_divide|].
    rewrite Hw2. eexists _, _, _. split; [reflexivity|]. split; [reflexivity|].
    intros b k Hb Hk. destruct (Hrow b Hb) as [xs Hxs].
    destruct (finish_cells self da (da_data da)
                (renormalized_array self (da_data da)) b k _ Hself Hb Hk
                (renormalized_array_cell self _ b xs k Hself Hxs Hk))
      as (m & Hm & Hf & Ht).
    by exists m, (renormalized (raw_cell self xs k) (coverage_cell self xs k)).
  - rewrite !regrid_dataarray_plain by done.
    eexists _, _, _. split; [reflexivity|]. split; [reflexivity|].
    intros b k Hb Hk. destruct (Hrow b Hb) as [xs Hxs].
    destruct (finish_cells self da (da_data da)
                (remapped_array self (da_data da)) b k _ Hself Hb Hk
                (remapped_array_cell self _ b xs k Hself Hxs Hk))
      as (m & Hm & Hf & Ht).
    by exists m, (row_sum (coo_entries (weights self)) xs k).
Qed.

Lemma regrid_dataarray_mask_witness :
  regridder_init "src.nc" "dst.nc" grid_1x1 grid_2x1_masked two_weights world0
  = (inr half_masked, world0)
  /\ exists computed out w',
       regrid_dataarray half_masked (field_of [1; 1] [F64.of_Z 5]) true false world0
       = (inr computed, w')
       /\ regrid_dataarray half_masked (field_of [1; 1] [F64.of_Z 5]) true true world0
          = (inr out, w')
       /\ forall b k,
            b < size_of (take (length (shape (da_data (field_of [1; 1] [F64.of_Z 5]))) - 2)
                              (shape (da_data (field_of [1; 1] [F64.of_Z 5])))) ->
            k < n_dst half_masked ->
            exists m v,
              grid_imask grid_2x1_masked !! k = Some m
              /\ data (da_data computed) !! (b * n_dst half_masked + k) = Some v
              /\ data (da_data out) !! (b * n_dst half_masked + k)
                 = Some (if (m =? 0)%Z then F64.nan else v).
Proof.
  split; [reflexivity|].
  apply (regrid_dataarray_mask "src.nc" "dst.nc" grid_1x1 grid_2x1_masked
           two_weights world0 half_masked world0
           (field_of [1; 1] [F64.of_Z 5]) true world0).
  - reflexivity.
  - repeat split; cbn; lia.
  - intros _. split; discriminate.
Defined.

(** That run: [5.0] reaches both cells, and the mask blanks the second. *)
Example half_masked_run :
  result_data (regrid_dataarray half_masked (field_of [1; 1] [F64.of_Z 5])
                                true false world0) = Some [F64.of_Z 5; F64.of_Z 5]
  /\ result_data (regrid_dataarray half_masked (field_of [1; 1] [F64.of_Z 5])
                                   true true world0) = Some [F64.of_Z 5; F64.nan].
Proof. split; reflexivity. Qed.

End mask.

(** ** A field of ones under full coverage *)

Section ones.

Lemma product_index W (rows : list (list float)) i y :
  mjoin (coo_matvec W <$> rows) !! i = Some y ->
  exists b row k,
    rows !! b = Some row /\ k < (coo_shape W).1
    /\ i = b * (coo_shape W).1 + k
    /\ y = row_sum (coo_entries W) row k.
Proof.
  intros H.
  apply (join_lookup_Some_same_length (coo_shape W).1) in H as (b & l & k & Hl & Hk & ->).
  2:{ apply Forall_fmap, Forall_forall. intros x _. apply coo_matvec_length. }
  rewrite list_lookup_fmap in Hl.
  destruct (rows !! b) as [row|] eqn:Hrow; [|done]. injection Hl as <-.
  assert (k < (coo_shape W).1)
    by (apply lookup_lt_Some in Hk; by rewrite coo_matvec_length in Hk).
  exists b, row, k. repeat split; try done.
  rewrite coo_matvec_lookup in Hk by done. congruence.
Qed.

(** Every element of the renormalized array is the renormalized value of
    some cell of some batch. *)
Lemma renormalized_array_index self a i x y :
  wf_regridder self ->
  raw_array self a !! i = Some x -> coverage_array self a !! i = Some y ->
  exists b xs k,
    batches (n_src self) a !! b = Some xs /\ k < n_dst self
    /\ i = b * n_dst self + k
    /\ x = raw_cell self xs k /\ y = coverage_cell self xs k.
Proof.
  intros Hself Hx Hy. assert (Hw := proj1 Hself).
  apply product_index in Hx as (b & row & k & Hrow & Hk & -> & ->).
  rewrite list_lookup_fmap in Hrow.
  destruct (batches (n_src self) a !! b) as [xs|] eqn:Hxs; [|done].
  injection Hrow as <-.
  rewrite Hw in Hk. cbn in Hk.
  exists b, xs, k. repeat split; try done; [by rewrite Hw|].
  rewrite Hw in Hy. cbn [fst] in Hy.
  rewrite (coverage_array_cell self a b xs k) in Hy by done. congruence.
Qed.

Lemma arrays_length self a rn :
  wf_regridder self -> field_fits self a rn ->
  length (raw_array self a) = n_batches a * n_dst self
  /\ length (coverage_array self a) = n_batches a * n_dst self
  /\ length (remapped_array self a) = n_batches a * n_dst self.
Proof.
  intros [Hw _] Hfit.
  pose proof (batches_length a _ _ (field_fits_length _ _ _ Hfit)
                ltac:(apply Hfit)) as Hb.
  unfold raw_array, coverage_array, remapped_array.
  rewrite !rows_length, !length_fmap, Hb, Hw. done.
Qed.

Lemma ones_rows xs :
  Forall (fun v => v = F64.one) xs ->
  fill_missing <$> xs = xs /\ indicator <$> xs = xs.
Proof.
  induction 1 as [|v xs -> _ [IH1 IH2]]; [done|].
  cbn. by rewrite IH1, IH2.
Qed.

Lemma ones_cell self a b xs k :
  Forall (fun v => v = F64.one) (data a) ->
  full_coverage self a ->
  batches (n_src self) a !! b = Some xs -> k < n_dst self ->
  exists m e,
    raw_cell self xs k = S754_finite false m e
    /\ coverage_cell self xs k = S754_finite false m e.
Proof.
  intros Hones Hfull Hxs Hk.
  destruct (Hfull b xs k Hxs Hk) as (m & e & Hc). exists m, e. split; [|done].
  assert (Forall (fun v => v = F64.one) xs) as Hrow.
  { eapply (proj1 (Forall_lookup _ _)); [|exact Hxs].
    by apply Forall_reshape. }
  unfold raw_cell. unfold coverage_cell in Hc.
  destruct (ones_rows xs Hrow) as [-> Hi]. by rewrite Hi in Hc.
Qed.

Lemma renormalized_self m e :
  renormalized (S754_finite false m e) (S754_finite false m e) = F64.one
  /\ div_flags (S754_finite false m e) (positive_or_nan (S754_finite false m e))
     = no_flags.
Proof.
  unfold renormalized, positive_or_nan. cbn [F64.gt SFltb SFcompare F64.zero].
  split; [apply div_self|apply div_flags_self].
Qed.

Lemma world_eta w : with_errstate (errstate w) (with_errstate (invalid_ignored (errstate w)) w) = w.
Proof. by destruct w. Qed.

(** C7.  A field of ones that fits a well-formed regridder whose coverage
    is positive in every destination cell: the renormalized transform
    returns, raises no flag and leaves the session as it was; without the
    mask every cell of the result is exactly [1.0], and with the mask every
    cell is [1.0] except those the mask blanks. *)
Theorem regrid_dataarray_ones self da w :
  wf_regridder self ->
  field_fits self (da_data da) true ->
  Forall (fun v => v = F64.one) (data (da_data da)) ->
  full_coverage self (da_data da) ->
  (exists out,
     regrid_dataarray self da true false w = (inr out, w)
     /\ data (da_data out)
        = replicate (n_batches (da_data da) * n_dst self) F64.one)
  /\ (exists out,
        regrid_dataarray self da true true w = (inr out, w)
        /\ forall b k,
             b < n_batches (da_data da) -> k < n_dst self ->
             exists m,
               mask_cells self !! k = Some m
               /\ data (da_data out) !! (b * n_dst self + k)
                  = Some (masked m F64.one)).
Proof.
  intros Hself Hfit Hones Hfull.
  assert (Hflags : renormalize_flags self (da_data da) = no_flags).
  { apply flags_fold_none. intros i x y Hx Hy.
    rewrite list_lookup_fmap in Hy.
    destruct (coverage_array self (da_data da) !! i) as [c|] eqn:Hc; [|done].
    injection Hy as <-.
    destruct (renormalized_array_index self _ i x c Hself Hx Hc)
      as (b & xs & k & Hxs & Hk & _ & -> & ->).
    destruct (ones_cell self _ b xs k Hones Hfull Hxs Hk) as (m & e & -> & ->).
    apply renormalized_self. }
  assert (Hall : Forall (fun v => F64.one = v) (renormalized_array self (da_data da))).
  { apply Forall_lookup. intros i v Hv.
    apply lookup_zip_with_Some in Hv as (x & c & -> & Hx & Hc).
    destruct (renormalized_array_index self _ i x c Hself Hx Hc)
      as (b & xs & k & Hxs & Hk & _ & -> & ->).
    destruct (ones_cell self _ b xs k Hones Hfull Hxs Hk) as (m & e & -> & ->).
    symmetry. apply renormalized_self. }
  destruct (arrays_length self _ true Hself Hfit) as (Hlr & Hlc & _).
  assert (Hdata : renormalized_array self (da_data da)
                  = replicate (n_batches (da_data da) * n_dst self) F64.one).
  { symmetry. apply replicate_as_Forall. split; [|done].
    unfold renormalized_array. rewrite length_zip_with. lia. }
  split.
  - rewrite regrid_dataarray_renormalize, Hflags, fp_handle_no_flags, world_eta by done.
    eexists. split; [reflexivity|]. exact Hdata.
  - rewrite regrid_dataarray_renormalize, Hflags, fp_handle_no_flags, world_eta by done.
    eexists. split; [reflexivity|]. intros b k Hb Hk.
    destruct (lookup_lt_is_Some_2 (mask_cells self) k) as [m Hm];
      [by rewrite (proj2 Hself)|].
    exists m. split; [done|].
    apply (finish_cell self true); try done; [apply Hself|].
    rewrite Hdata. apply lookup_replicate_2. unfold n_batches in *. nia.
Qed.

Lemma half_masked_full_coverage :
  full_coverage half_masked (da_data (field_of [1; 1] [F64.one])).
Proof.
  intros b xs k Hb Hk. destruct b as [|b]; [|done].
  injection Hb as <-. cbn in Hk.
  destruct k as [|[|k]]; [by eexists _, _ | by eexists _, _ | lia].
Qed.

Lemma regrid_dataarray_ones_witness :
  wf_regridder half_masked
  /\ Forall (fun v => v = F64.one) (data (da_data (field_of [1; 1] [F64.one])))
  /\ (exists out,
        regrid_dataarray half_masked (field_of [1; 1] [F64.one]) true false world0
        = (inr out, world0)
        /\ data (da_data out)
           = replicate (n_batches (da_data (field_of [1; 1] [F64.one]))
                        * n_dst half_masked) F64.one)
  /\ (exists out,
        regrid_dataarray half_masked (field_of [1; 1] [F64.one]) true true world0
        = (inr out, world0)
        /\ forall b k,
             b < n_batches (da_data (field_of [1; 1] [F64.one])) ->
             k < n_dst half_masked ->
             exists m,
               mask_cells half_masked !! k = Some m
               /\ data (da_data out) !! (b * n_dst half_masked + k)
                  = Some (masked m F64.one)).
Proof.
  assert (Hwf : wf_regridder half_masked) by (split; reflexivity).
  assert (Hones : Forall (fun v => v = F64.one)
                         (data (da_data (field_of [1; 1] [F64.one]))))
    by (repeat constructor).
  split; [exact Hwf|]. split; [exact Hones|].
  apply (regrid_dataarray_ones half_masked (field_of [1; 1] [F64.one]) world0
           Hwf); [|exact Hones|exact half_masked_full_coverage].
  repeat split; cbn; lia.
Defined.

End ones.

(** ** Identity regridding *)

Section identity_regridding.

Lemma through_identity_equal xs : array_equal (through_identity <$> xs) xs.
Proof.
  induction xs as [|x xs IH]; constructor; [apply through_identity_same|done].
Qed.

Lemma identity_rows W n (rows : list (list float)) :
  coo_shape W = (n, n) -> coo_entries W ≡ₚ diagonal n ->
  Forall (fun row => length row = n) rows ->
  Forall all_valid rows ->
  mjoin (coo_matvec W <$> rows) = through_identity <$> mjoin rows.
Proof.
  intros Hs Hp Hlen Hval. rewrite <- join_fmap_fmap. f_equal.
  apply Forall_fmap_ext. apply Forall_forall. intros row Hrow.
  apply (identity_matvec W n); try done.
  - by apply (proj1 (Forall_forall _ _) Hlen).
  - by apply (proj1 (Forall_forall _ _) Hval).
Qed.

Lemma through_identity_valid v :
  F64.valid v = true -> F64.valid (through_identity v) = true.
Proof. by destruct v. Qed.

Lemma fill_missing_valid v :
  F64.valid v = true -> F64.valid (fill_missing v) = true.
Proof. by destruct v. Qed.

Lemma indicator_valid v : F64.valid (indicator v) = true.
Proof. by destruct v. Qed.

(** The identity operator applied by [esmf_apply_weights]. *)
Lemma esmf_apply_weights_identity W a h wd w :
  flags_C_CONTIGUOUS a = true ->
  wf_array a ->
  drop (length (shape a) - 2) (shape a) = [h; wd] ->
  0 < h * wd ->
  coo_shape W = (h * wd, h * wd) ->
  coo_entries W ≡ₚ diagonal (h * wd) ->
  all_valid (data a) ->
  exists out,
    esmf_apply_weights W a (h, wd) (h, wd) w = (inr out, w)
    /\ shape out = shape a
    /\ data out = through_identity <$> data a
    /\ array_equal (data out) (data a).
Proof.
  intros Hc Hwf Hh Hpos Hs Hp Hval.
  pose proof (wf_array_length a _ _ Hwf Hh) as Hlen.
  eexists. split.
  { apply esmf_apply_weights_ok; try done; by rewrite Hs. }
  cbn [shape data fst snd].
  assert (mjoin (coo_matvec W <$> batches (h * wd) a) = through_identity <$> data a)
    as ->.
  { rewrite (identity_rows W (h * wd)); try done.
    - by rewrite (batches_join a _ _ Hlen).
    - unfold batches. rewrite Hlen, Nat.div_mul by lia.
      by apply reshape_rows_length.
    - by apply Forall_reshape. }
  repeat split.
  - rewrite <- Hh. apply take_drop.
  - apply through_identity_equal.
Qed.

Lemma shifted_identity n :
  (fun t : Z * Z * float => (t.1.1 - 1, t.1.2 - 1, t.2)%Z)
    <$> row_col_S (identity_table n)
  = (fun i => (Z.of_nat i, Z.of_nat i, F64.one)) <$> seq 0 n.
Proof.
  cbn. rewrite <- list_fmap_compose. apply list_fmap_ext.
  intros i x _. cbn. by rewrite Z.add_simpl_r.
Qed.

Lemma sps_coo_identity n w :
  sps_coo_matrix ((fun i => (Z.of_nat i, Z.of_nat i, F64.one)) <$> seq 0 n) (n, n) w
  = (inr (identity_coo n), w).
Proof.
  unfold sps_coo_matrix. rewrite <- !list_fmap_compose. cbn [fst snd].
  rewrite !existsb_none.
  1:{ unfold ret, identity_coo, diagonal. do 3 f_equal.
      apply list_fmap_ext. intros i x _. cbn. by rewrite Nat2Z.id. }
  all: apply Forall_fmap, Forall_forall; intros i Hi%elem_of_seq; cbn; lia.
Qed.

(** Two identical grids and the identity table: the constructor returns the
    identity operator, with the grid's mask. *)
Lemma regridder_init_identity src_name dst_name g w :
  length (grid_imask g) = (grid_dims g).2 * (grid_dims g).1 ->
  exists self,
    regridder_init src_name dst_name g g
                   (identity_table ((grid_dims g).2 * (grid_dims g).1)) w
    = (inr self, w)
    /\ wf_regridder self
    /\ dims_src self = prod_swap (grid_dims g)
    /\ dims_dst self = prod_swap (grid_dims g)
    /\ mask_cells self = grid_imask g
    /\ weights self = identity_coo ((grid_dims g).2 * (grid_dims g).1).
Proof.
  intros Hlen.
  assert (exists self,
    regridder_init src_name dst_name g g
                   (identity_table ((grid_dims g).2 * (grid_dims g).1)) w
    = (inr self, w)
    /\ weights self = identity_coo ((grid_dims g).2 * (grid_dims g).1))
    as (self & Hinit & Hw).
  { unfold regridder_init, bind, np_reshape2.
    destruct (grid_dims g) as [nx ny]. cbn [prod_swap fst snd] in *.
    rewrite (proj2 (Nat.eqb_eq _ _) Hlen). cbn [ret].
    rewrite shifted_identity, sps_coo_identity. cbn [ret]. by eexists. }
  exists self. split; [done|].
  apply regridder_init_inv in Hinit as (_ & Hs & Hd & Hm & _ & Hwf).
  done.
Qed.

Lemma zip_with_mask_kept (vals : list float) (ms : list Z) :
  Forall (fun m => m <> 0%Z) ms -> length vals <= length ms ->
  zip_with (fun v (m : Z) => if (m =? 0)%Z then F64.nan else v) vals ms = vals.
Proof.
  intros H. revert vals. induction H as [|m ms Hm _ IH]; intros [|v vals] Hl;
    try done; [cbn in Hl; lia|].
  cbn. rewrite IH by (cbn in Hl; lia).
  by rewrite (proj2 (Z.eqb_neq _ _) Hm).
Qed.

(** A mask without zeros changes nothing. *)
Lemma finish_unmasked self apply_mask da_in a vals :
  wf_regridder self ->
  Forall (fun m => m <> 0%Z) (mask_cells self) ->
  length vals = n_batches a * n_dst self ->
  data (da_data (finish self apply_mask
                   (reform da_in (mk_ndarray (out_shape self a) vals C_layout))))
  = vals
  /\ shape (da_data (finish self apply_mask
                       (reform da_in (mk_ndarray (out_shape self a) vals C_layout))))
     = out_shape self a.
Proof.
  intros [_ Hm] Hnz Hlen. destruct apply_mask; [|done].
  cbn [finish da_where reform da_data data shape]. split; [|done].
  rewrite out_shape_batch. fold (mask_cells self). fold (n_batches a).
  apply zip_with_mask_kept.
  - apply Forall_join. by apply Forall_replicate.
  - rewrite length_join, fmap_replicate, sum_list_replicate, Hm. lia.
Qed.

(** One value through the identity operator and the renormalization. *)
Lemma renormalized_identity v :
  F64.valid v = true ->
  renormalized (through_identity (fill_missing v)) (through_identity (indicator v))
  = through_identity v
  /\ div_flags (through_identity (fill_missing v))
               (positive_or_nan (through_identity (indicator v)))
     = no_flags.
Proof.
  intros Hv. destruct (F64.isnan v) eqn:Hnan.
  - destruct v; try discriminate. by split.
  - assert (fill_missing v = v) as -> by (unfold fill_missing; by rewrite Hnan).
    assert (indicator v = F64.one) as -> by (unfold indicator; by rewrite Hnan).
    change (through_identity F64.one) with F64.one.
    unfold renormalized, positive_or_nan.
    change (F64.gt F64.one F64.zero) with true. cbv iota.
    pose proof (through_identity_valid v Hv).
    split; [by apply div_one_r | by apply div_flags_one_r].
Qed.

Lemma identity_arrays self a rn :
  wf_regridder self -> field_fits self a rn ->
  weights self = identity_coo (n_src self) ->
  all_valid (data a) ->
  raw_array self a = through_identity <$> (fill_missing <$> data a)
  /\ coverage_array self a = through_identity <$> (indicator <$> data a)
  /\ remapped_array self a = through_identity <$> data a.
Proof.
  intros Hself Hfit Hw Hval.
  pose proof (field_fits_length _ _ _ Hfit) as Hlen.
  assert (Hpos : 0 < n_src self) by apply Hfit.
  assert (Hrows : Forall (fun row => length row = n_src self) (batches (n_src self) a)).
  { unfold batches. rewrite Hlen, Nat.div_mul by lia. by apply reshape_rows_length. }
  assert (Hvrows : Forall all_valid (batches (n_src self) a)) by by apply Forall_reshape.
  assert (Hlf : forall f : float -> float,
    Forall (fun row => length row = n_src self)
           ((fmap f : list float -> list float) <$> batches (n_src self) a)).
  { intros f. apply Forall_fmap. eapply Forall_impl; [exact Hrows|].
    intros row Hrow. cbn. by rewrite length_fmap. }
  assert (Hvf : forall f : float -> float,
    (forall v, F64.valid v = true -> F64.valid (f v) = true) ->
    Forall all_valid ((fmap f : list float -> list float) <$> batches (n_src self) a)).
  { intros f Hf. apply Forall_fmap. eapply Forall_impl; [exact Hvrows|].
    intros row Hrow. apply Forall_fmap. eapply Forall_impl; [exact Hrow|].
    intros v Hv. by apply Hf. }
  unfold raw_array, coverage_array, remapped_array. rewrite Hw.
  rewrite !(identity_rows (identity_coo (n_src self)) (n_src self));
    try done; try apply Hlf.
  - rewrite !join_fmap_fmap. by rewrite (batches_join a _ _ Hlen).
  - apply Hvf. intros v _. apply indicator_valid.
  - apply Hvf. apply fill_missing_valid.
Qed.

(** The transform of an identity regridder whose mask has no zero. *)
Lemma regrid_dataarray_identity self da rn apply_mask w :
  wf_regridder self ->
  weights self = identity_coo (n_src self) ->
  dims_dst self = dims_src self ->
  Forall (fun m => m <> 0%Z) (mask_cells self) ->
  field_fits self (da_data da) rn ->
  all_valid (data (da_data da)) ->
  exists out,
    regrid_dataarray self da rn apply_mask w = (inr out, w)
    /\ shape (da_data out) = shape (da_data da)
    /\ data (da_data out) = through_identity <$> data (da_data da).
Proof.
  intros Hself Hw Hdims Hnz Hfit Hval.
  destruct (identity_arrays self _ rn Hself Hfit Hw Hval) as (Hraw & Hcov & Hrem).
  destruct (arrays_length self _ rn Hself Hfit) as (Hlr & Hlc & Hlm).
  assert (Hshape : out_shape self (da_data da) = shape (da_data da)).
  { unfold out_shape. rewrite Hdims.
    destruct Hfit as (_ & <- & _). apply take_drop. }
  destruct rn.
  - assert (Hdata : renormalized_array self (da_data da)
                    = through_identity <$> data (da_data da)).
    { unfold renormalized_array. rewrite Hraw, Hcov, <- !list_fmap_compose.
      rewrite zip_with_fmap_l, zip_with_fmap_r, zip_with_diag.
      apply Forall_fmap_ext. eapply Forall_impl; [exact Hval|].
      intros v Hv. by apply renormalized_identity. }
    assert (Hflags : renormalize_flags self (da_data da) = no_flags).
    { unfold renormalize_flags. rewrite Hraw, Hcov, <- !list_fmap_compose.
      apply flags_fold_none. intros i x y Hx Hy.
      rewrite list_lookup_fmap in Hx, Hy.
      destruct (data (da_data da) !! i) as [v|] eqn:Hv; [|done].
      injection Hx as <-. injection Hy as <-.
      apply renormalized_identity.
      by apply (proj1 (Forall_lookup _ _) Hval i v). }
    rewrite regrid_dataarray_renormalize, Hflags, fp_handle_no_flags, world_eta by done.
    eexists. split; [reflexivity|].
    destruct (finish_unmasked self apply_mask da (da_data da)
                (renormalized_array self (da_data da)) Hself Hnz) as [Hd Hs].
    { unfold renormalized_array. rewrite length_zip_with. lia. }
    by rewrite Hd, Hs, Hdata, Hshape.
  - rewrite regrid_dataarray_plain by done.
    eexists. split; [reflexivity|].
    destruct (finish_unmasked self apply_mask da (da_data da)
                (remapped_array self (da_data da)) Hself Hnz Hlm) as [Hd Hs].
    by rewrite Hd, Hs, Hrem, Hshape.
Qed.

(** C2.  (1) [esmf_apply_weights] with an identity operator, its triplets
    [(i, i, 1.0)] in any order, on a C-contiguous array of any number of
    leading dimensions: the result has the shape of the input and its
    elements, which are the input's with [-0.0] read as [+0.0], equal the
    input's.  (2) A regridder built by the constructor from one grid used
    twice, all-ones mask, and the identity table returns every fitting
    field in the same way, with or without renormalization and mask, and
    leaves the session untouched. *)
Theorem identity_regridding :
  (forall W a h wd w,
     flags_C_CONTIGUOUS a = true ->
     wf_array a ->
     drop (length (shape a) - 2) (shape a) = [h; wd] ->
     0 < h * wd ->
     coo_shape W = (h * wd, h * wd) ->
     coo_entries W ≡ₚ diagonal (h * wd) ->
     all_valid (data a) ->
     exists out,
       esmf_apply_weights W a (h, wd) (h, wd) w = (inr out, w)
       /\ shape out = shape a
       /\ data out = through_identity <$> data a
       /\ array_equal (data out) (data a))
  /\ (forall src_name dst_name g w0,
        grid_imask g = replicate ((grid_dims g).2 * (grid_dims g).1) 1%Z ->
        exists self,
          regridder_init src_name dst_name g g
                         (identity_table ((grid_dims g).2 * (grid_dims g).1)) w0
          = (inr self, w0)
          /\ forall da renormalize apply_mask w,
               field_fits self (da_data da) renormalize ->
               all_valid (data (da_data da)) ->
               exists out,
                 regrid_dataarray self da renormalize apply_mask w = (inr out, w)
                 /\ shape (da_data out) = shape (da_data da)
                 /\ data (da_data out) = through_identity <$> data (da_data da)
                 /\ array_equal (data (da_data out)) (data (da_data da))).
Proof.
  split.
  - intros W a h wd w. apply esmf_apply_weights_identity.
  - intros src_name dst_name g w0 Hmask.
    destruct (regridder_init_identity src_name dst_name g w0)
      as (self & Hinit & Hself & Hs & Hd & Hm & Hw).
    { by rewrite Hmask, length_replicate. }
    exists self. split; [done|].
    intros da rn am w Hfit Hval.
    destruct (regrid_dataarray_identity self da rn am w) as (out & Hr & Hsh & Hdata);
      try done.
    + rewrite Hw. unfold n_src. by rewrite Hs.
    + by rewrite Hs, Hd.
    + rewrite Hm, Hmask. by apply Forall_replicate.
    + exists out. repeat split; try done.
      rewrite Hdata. apply through_identity_equal.
Qed.

(** The field [[1, 2], [3, 4]] through two identical [2 x 2] grids and the
    identity table. *)
Lemma identity_regridding_witness :
  exists self out,
    regridder_init "grid.nc" "grid.nc" grid_2x2 grid_2x2 (identity_table 4) world0
    = (inr self, world0)
    /\ regrid_dataarray self (field_of [2; 2] (F64.of_Z <$> [1; 2; 3; 4]%Z))
                        true true world0 = (inr out, world0)
    /\ shape (da_data out) = [2; 2]
    /\ data (da_data out) = F64.of_Z <$> [1; 2; 3; 4]%Z.
Proof.
  destruct (proj2 identity_regridding "grid.nc" "grid.nc" grid_2x2 world0 eq_refl)
    as (self & Hinit & Htransform).
  destruct (Htransform (field_of [2; 2] (F64.of_Z <$> [1; 2; 3; 4]%Z)) true true world0)
    as (out & Hrun & Hshape & Hdata & _).
  - injection Hinit as <-. repeat split; cbn; lia.
  - repeat constructor.
  - exists self, out. repeat split; try done.
Defined.

(** The sign of a zero is the one thing the identity operator does not
    keep: [0.0 + 1.0 * (-0.0)] is [+0.0], which [==] does not tell from
    [-0.0]. *)
Example identity_negative_zero :
  result_data
    ((let* out := esmf_apply_weights (identity_coo 1)
                    (mk_ndarray [1; 1] [S754_zero true] C_layout) (1, 1) (1, 1) in
      ret (field_of (shape out) (data out))) world0)
  = Some [S754_zero false]
  /\ F64.same (S754_zero false) (S754_zero true) = true.
Proof. split; reflexivity. Qed.

End identity_regridding.

(** ** The error policy around the renormalization *)

Section error_policy.

Lemma warnings_warn_raises msg w :
  warnings_warn msg w = (inl (NameError "warnings"), w).
Proof. reflexivity. Qed.

(** [esmf_apply_weights] leaves the session as it found it, and whether it
    raises depends on the shape, the layout and the size of its input
    only. *)
Lemma esmf_apply_weights_world W a shape_in shape_out w r w' :
  esmf_apply_weights W a shape_in shape_out w = (r, w') -> w' = w.
Proof.
  unfold esmf_apply_weights, bind, py_assert, np_reshape_rows, np_reshape.
  destruct (flags_C_CONTIGUOUS a); cbn [negb];
    [|rewrite warnings_warn_raises; by intros [= _ <-]].
  unfold ret, raise.
  repeat match goal with
         | |- context [if ?b then _ else _] => destruct b
         end; by intros [= _ <-].
Qed.

Lemma esmf_apply_weights_returns_alike W a a' shape_in shape_out w w1 out :
  shape a' = shape a -> order a' = order a ->
  length (data a') = length (data a) ->
  esmf_apply_weights W a shape_in shape_out w = (inr out, w) ->
  exists out', esmf_apply_weights W a' shape_in shape_out w1 = (inr out', w1).
Proof.
  intros Hs Ho Hl.
  unfold esmf_apply_weights, bind, py_assert, np_reshape_rows, np_reshape,
    flags_C_CONTIGUOUS.
  rewrite Hs, Ho, Hl.
  destruct (order a); cbn [negb]; try (rewrite warnings_warn_raises; discriminate).
  unfold ret, raise.
  destruct (bool_decide _); [|discriminate].
  destruct (_ =? (coo_shape W).2); [|discriminate].
  destruct (_ =? (coo_shape W).1); [|discriminate].
  destruct (_ || _); [discriminate|].
  rewrite !rows_length, !length_reshape, !length_replicate.
  destruct (_ =? _); [|discriminate]. intros _. by eexists.
Qed.

Lemma fp_report_error what mode raised w e w' :
  fp_report what mode raised w = (inl e, w') -> e = FloatingPointError what.
Proof.
  unfold fp_report. destruct raised; [|discriminate].
  destruct mode; try discriminate. by intros [= <- _].
Qed.

Lemma fp_handle_error fl w e w' :
  fp_handle fl w = (inl e, w') -> exists what, e = FloatingPointError what.
Proof.
  unfold fp_handle, bind.
  destruct (fp_report "divide by zero" _ _ w) as [[e1|[]] w1] eqn:E1;
    [intros [= <- _]; eexists; by eapply fp_report_error|].
  destruct (fp_report "overflow" _ _ w1) as [[e2|[]] w2] eqn:E2;
    [intros [= <- _]; eexists; by eapply fp_report_error|].
  destruct (fp_report "underflow" _ _ w2) as [[e3|[]] w3] eqn:E3;
    [intros [= <- _]; eexists; by eapply fp_report_error|].
  intros E4. eexists; by eapply fp_report_error.
Qed.

Lemma esmf_apply_weights_no_fp_error W a shape_in shape_out w what w' :
  esmf_apply_weights W a shape_in shape_out w <> (inl (FloatingPointError what), w').
Proof.
  unfold esmf_apply_weights, bind, py_assert, np_reshape_rows, np_reshape.
  destruct (flags_C_CONTIGUOUS a); cbn [negb];
    [|rewrite warnings_warn_raises; discriminate].
  unfold ret, raise.
  repeat match goal with
         | |- context [if ?b then _ else _] => destruct b
         end; discriminate.
Qed.

(** C10 (as amended).  Whatever the regridder, the field and the flags: a
    transform that returns leaves the error policy as it found it, and so
    does one that raises anything but [FloatingPointError]; a transform that
    raises [FloatingPointError] was renormalizing, raised in the division,
    and leaves invalid-value reports ignored. *)
Theorem regrid_dataarray_error_policy self da renormalize apply_mask w :
  match regrid_dataarray self da renormalize apply_mask w with
  | (inr _, w') => errstate w' = errstate w
  | (inl (FloatingPointError _), w') =>
      renormalize = true /\ errstate w' = invalid_ignored (errstate w)
  | (inl _, w') => errstate w' = errstate w
  end.
Proof.
  unfold regrid_dataarray. unfold bind at 1.
  destruct (esmf_apply_weights _ _ _ _ w) as [[e|raw] w1] eqn:E1.
  { pose proof (esmf_apply_weights_world _ _ _ _ _ _ _ E1) as ->.
    destruct e; try done.
    by destruct (esmf_apply_weights_no_fp_error _ _ _ _ _ _ _ E1). }
  pose proof (esmf_apply_weights_world _ _ _ _ _ _ _ E1) as ->.
  destruct renormalize; [|done].
  unfold bind at 1. unfold bind at 1. unfold np_seterr_invalid at 1.
  unfold bind at 1.
  match goal with
  | |- context [esmf_apply_weights ?W ?a ?si ?so ?w2] =>
      destruct (esmf_apply_weights_returns_alike W
                  (np_where_sa (np_isnan (da_data da)) F64.zero (da_data da))
                  a si so w w2 raw)
        as [cov Hcov]; [done|done| |exact E1|rewrite Hcov]
  end.
  { cbn. by rewrite length_fmap, length_zip_with, length_fmap, Nat.min_id. }
  unfold bind at 1. unfold np_divide at 1. unfold bind at 1.
  destruct (fp_handle _ _) as [[e|[]] w3] eqn:E3.
  - apply fp_handle_error in E3 as Herr. destruct Herr as [what ->].
    apply fp_handle_errstate in E3. done.
  - done.
Qed.

(** C10 (as stated, refuted).  With every report set to raise, the field
    [[2^1023, 0.0]] and the weights [1.0] and [-0.5]: the coverage is [0.5],
    the division overflows, the transform exits with
    [FloatingPointError], and invalid-value reports stay ignored instead of
    raising as before the call. *)
Lemma regrid_dataarray_policy_not_restored :
  regrid_dataarray signed_weights (field_of [1; 2] [two_to_1023; F64.zero])
                   true true world_raise_all
  = (inl (FloatingPointError "overflow"),
     {| errstate := invalid_ignored raise_all; warnings_log := [] |})
  /\ invalid_ignored raise_all <> raise_all.
Proof. split; [reflexivity|discriminate]. Qed.

(** Under NumPy's default policy the same run returns: the overflow is
    warned about, the cell is [+inf], and the policy is back in place. *)
Example overflow_warned :
  regrid_dataarray signed_weights (field_of [1; 2] [two_to_1023; F64.zero])
                   true true world0
  = (inr (field_of [1; 1] [S754_infinity false]),
     {| errstate := default_errstate;
        warnings_log := [RuntimeWarning "overflow"] |}).
Proof. reflexivity. Qed.

End error_policy.

(** ** Cell centres of the generated grid *)

Section centres.

Import Scrip.
Local Open Scope Q_scope.

Lemma Qceiling_half (n : Z) : Qceiling (inject_Z n - (1 # 2)) = n.
Proof.
  pose proof (Qle_ceiling (inject_Z n - (1 # 2))) as Hle.
  pose proof (Qceiling_lt (inject_Z n - (1 # 2))) as Hlt.
  set (c := Qceiling (inject_Z n - (1 # 2))) in *. clearbody c.
  unfold Z.sub in Hlt. rewrite inject_Z_plus, inject_Z_opp in Hlt.
  change (inject_Z 1) with 1 in Hlt.
  assert (Hup : (c < n)%Z -> inject_Z c + 1 <= inject_Z n).
  { intros H. assert (c + 1 <= n)%Z as H1 by lia.
    by rewrite Zle_Qle, inject_Z_plus in H1. }
  assert (Hdn : (n < c)%Z -> inject_Z n + 1 <= inject_Z c).
  { intros H. assert (n + 1 <= c)%Z as H1 by lia.
    by rewrite Zle_Qle, inject_Z_plus in H1. }
  revert Hle Hlt Hup Hdn. generalize (inject_Z n) (inject_Z c). intros qn qc ? ? Hup Hdn.
  destruct (Z_lt_le_dec c n) as [H|H]; [specialize (Hup H); exfalso; lra|].
  destruct (Z_lt_le_dec n c) as [H'|H']; [specialize (Hdn H'); exfalso; lra|lia].
Qed.

(** [np.arange] over [n] steps that end half a step short of [stop]. *)
Lemma np_arange_length (start stop step : Q) (n : Z) :
  0 < step -> stop - start == (inject_Z n - (1 # 2)) * step ->
  length (np_arange start stop step) = Z.to_nat n.
Proof.
  intros Hstep Hspan. unfold np_arange. rewrite length_fmap, length_seq.
  f_equal. rewrite <- (Qceiling_half n). apply Qceiling_comp.
  rewrite Hspan. field. lra.
Qed.

Lemma inject_Z_pos (n : Z) : (0 < n)%Z -> 0 < inject_Z n.
Proof. intros H. rewrite Zlt_Qlt in H. exact H. Qed.

Lemma lat_length (ny : Z) :
  (0 < ny)%Z ->
  length (np_arange (-90 + 180 / inject_Z ny / 2) 90 (180 / inject_Z ny))
  = Z.to_nat ny.
Proof.
  intros Hny. pose proof (inject_Z_pos ny Hny) as Hz.
  apply np_arange_length.
  - apply Qlt_shift_div_l; lra.
  - field. lra.
Qed.

Lemma lon_length (nx : Z) (lon0 : Q) :
  (0 < nx)%Z ->
  length (np_arange (lon0 + 360 / inject_Z nx / 2) (lon0 + 360) (360 / inject_Z nx))
  = Z.to_nat nx.
Proof.
  intros Hnx. pose proof (inject_Z_pos nx Hnx) as Hz.
  apply np_arange_length.
  - apply Qlt_shift_div_l; lra.
  - field. lra.
Qed.

(** For positive sizes the centres are the two ranges, broadcast. *)
Lemma centers_ok (nx ny : Z) (lon0 : Q) :
  (0 < nx)%Z -> (0 < ny)%Z ->
  centers nx ny lon0
  = inr ((fun y => replicate (Z.to_nat nx) y)
           <$> np_arange (-90 + 180 / inject_Z ny / 2) 90 (180 / inject_Z ny),
         replicate (Z.to_nat ny)
           (np_arange (lon0 + 360 / inject_Z nx / 2) (lon0 + 360) (360 / inject_Z nx))).
Proof.
  intros Hnx Hny. unfold centers, broadcast_rows, broadcast_cols.
  rewrite lat_length, lon_length by done. rewrite !Z2Nat.id by lia.
  rewrite !Z.eqb_refl.
  by rewrite (proj2 (Z.ltb_ge _ _)), (proj2 (Z.ltb_ge _ _)) by lia.
Qed.

End centres.

(** ** The area of the sphere *)

Section sphere.

Import Scrip.
Local Open Scope R_scope.

Lemma Rsum_app (l1 l2 : list R) : Rsum (l1 ++ l2) = Rsum l1 + Rsum l2.
Proof.
  unfold Rsum. induction l1 as [|x l1 IH]; cbn; [lra|]. rewrite IH. lra.
Qed.

Lemma deg2rad_comp (p q : Q) : (p == q)%Q -> deg2rad p = deg2rad q.
Proof. intros H. unfold deg2rad. by rewrite (Qeq_eqR _ _ H). Qed.

Lemma Q2R_inject_Z (z : Z) : Q2R (inject_Z z) = IZR z.
Proof. unfold Q2R. cbn. rewrite Rinv_1. apply Rmult_1_r. Qed.

(** The width of a cell in radians. *)
Lemma cell_width (dx x : Q) :
  deg2rad (x + dx / 2) - deg2rad (x - dx / 2) = Q2R dx * PI / 180.
Proof.
  unfold deg2rad.
  replace (Q2R dx) with (Q2R (x + dx / 2) - Q2R (x - dx / 2)).
  - field.
  - rewrite <- Q2R_minus. apply Qeq_eqR. field.
Qed.

Lemma cell_area_eq (dx dy x y : Q) :
  cell_area (y_corner_of dy y) (x_corner_of dx x) = band dy y * (Q2R dx * PI / 180).
Proof. unfold cell_area, band. cbn [c0 c1 c3 y_corner_of x_corner_of]. by rewrite cell_width. Qed.

Lemma row_area (dx dy y : Q) (lon : list Q) :
  Rsum (zip_with cell_area (y_corner_of dy <$> replicate (length lon) y)
                           (x_corner_of dx <$> lon))
  = band dy y * (INR (length lon) * (Q2R dx * PI / 180)).
Proof.
  induction lon as [|x lon IH]; [cbn; lra|].
  change (Rsum (cell_area (y_corner_of dy y) (x_corner_of dx x)
                :: zip_with cell_area (y_corner_of dy <$> replicate (length lon) y)
                                      (x_corner_of dx <$> lon))
          = band dy y * (INR (S (length lon)) * (Q2R dx * PI / 180))).
  change (Rsum (?a :: ?l)) with (a + Rsum l).
  rewrite S_INR, cell_area_eq, IH. lra.
Qed.

(** The areas of the whole grid, row by row. *)
Lemma grid_area_rows (dx dy : Q) (lat lon : list Q) :
  Rsum (mjoin (zip_with (zip_with cell_area)
                 (y_corners dy ((fun y => replicate (length lon) y) <$> lat))
                 (x_corners dx (replicate (length lat) lon))))
  = Rsum (band dy <$> lat) * (INR (length lon) * (Q2R dx * PI / 180)).
Proof.
  induction lat as [|y lat IH]; [cbn; lra|].
  change (Rsum (mjoin
            (zip_with cell_area (y_corner_of dy <$> replicate (length lon) y)
                                (x_corner_of dx <$> lon)
             :: zip_with (zip_with cell_area)
                  (y_corners dy ((fun y => replicate (length lon) y) <$> lat))
                  (x_corners dx (replicate (length lat) lon))))
          = Rsum (band dy y :: (band dy <$> lat))
            * (INR (length lon) * (Q2R dx * PI / 180))).
  change (mjoin (?r :: ?rs)) with (r ++ mjoin rs).
  change (Rsum (?a :: ?l)) with (a + Rsum l).
  rewrite Rsum_app, row_area, IH. lra.
Qed.

Lemma band_boundaries (dy : Q) (j : nat) :
  band dy (-90 + dy / 2 + inject_Z (Z.of_nat j) * dy)%Q
  = boundary_sin dy (S j) - boundary_sin dy j.
Proof.
  unfold band, boundary_sin. f_equal; f_equal; apply deg2rad_comp.
  - rewrite Nat2Z.inj_succ. unfold Z.succ. rewrite inject_Z_plus. field.
  - field.
Qed.

(** The bands telescope. *)
Lemma bands_sum (dy : Q) (a n : nat) :
  Rsum (band dy <$> ((fun i : nat => -90 + dy / 2 + inject_Z (Z.of_nat i) * dy)%Q
                       <$> seq a n))
  = boundary_sin dy (a + n) - boundary_sin dy a.
Proof.
  revert a. induction n as [|n IH]; intros a.
  - rewrite Nat.add_0_r. cbn. lra.
  - change (Rsum (band dy (-90 + dy / 2 + inject_Z (Z.of_nat a) * dy)%Q
                  :: (band dy <$> ((fun i : nat =>
                                      -90 + dy / 2 + inject_Z (Z.of_nat i) * dy)%Q
                                     <$> seq (S a) n)))
            = boundary_sin dy (a + S n) - boundary_sin dy a).
    change (Rsum (?x :: ?l)) with (x + Rsum l).
    rewrite IH, band_boundaries. replace (S a + n)%nat with (a + S n)%nat by lia.
    lra.
Qed.

Lemma south_pole (dy : Q) : boundary_sin dy 0 = -1.
Proof.
  unfold boundary_sin. rewrite (deg2rad_comp _ (-90)%Q) by (cbn; field).
  unfold deg2rad. replace (Q2R (-90) * PI / 180) with (- (PI / 2)).
  - rewrite sin_neg, sin_PI2. lra.
  - unfold Q2R. cbn. field.
Qed.

Lemma north_pole (ny : Z) :
  (0 < ny)%Z -> boundary_sin (180 / inject_Z ny) (Z.to_nat ny) = 1.
Proof.
  intros Hny. pose proof (inject_Z_pos ny Hny) as Hz.
  unfold boundary_sin. rewrite Z2Nat.id by lia.
  rewrite (deg2rad_comp _ 90%Q) by (field; lra).
  unfold deg2rad. replace (Q2R 90 * PI / 180) with (PI / 2).
  - apply sin_PI2.
  - unfold Q2R. cbn. field.
Qed.

(** Around the sphere once: [nx] cells of width [360 / nx] degrees. *)
Lemma full_circle (nx : Z) :
  (0 < nx)%Z ->
  INR (Z.to_nat nx) * (Q2R (360 / inject_Z nx) * PI / 180) = 2 * PI.
Proof.
  intros Hnx. pose proof (inject_Z_pos nx Hnx) as Hz.
  rewrite INR_IZR_INZ, Z2Nat.id by lia. rewrite <- Q2R_inject_Z.
  replace (Q2R (inject_Z nx) * (Q2R (360 / inject_Z nx) * PI / 180))
    with (Q2R (inject_Z nx * (360 / inject_Z nx)) * PI / 180)
    by (rewrite Q2R_mult; field).
  rewrite (Qeq_eqR _ 360%Q) by (field; lra).
  unfold Q2R. cbn. field.
Qed.

(** The cell areas that [latlon_to_scrip] computes add up to the area of
    the unit sphere. *)
Lemma grid_area_sum (nx ny : Z) (lon0 : Q) :
  (0 < nx)%Z -> (0 < ny)%Z ->
  let dx := (360 / inject_Z nx)%Q in
  let dy := (180 / inject_Z ny)%Q in
  let lat := np_arange (-90 + dy / 2) 90 dy in
  let lon := np_arange (lon0 + dx / 2) (lon0 + 360) dx in
  Rsum (mjoin (zip_with (zip_with cell_area)
                 (y_corners dy ((fun y => replicate (Z.to_nat nx) y) <$> lat))
                 (x_corners dx (replicate (Z.to_nat ny) lon))))
  = 4 * PI.
Proof.
  intros Hnx Hny dx dy lat lon.
  assert (Hlon : length lon = Z.to_nat nx) by by apply lon_length.
  assert (Hlat : length lat = Z.to_nat ny) by by apply lat_length.
  rewrite <- Hlon, <- Hlat, grid_area_rows.
  rewrite Hlon. unfold dx. rewrite full_circle by done.
  unfold lat, np_arange in Hlat |- *. rewrite length_fmap, length_seq in Hlat.
  rewrite bands_sum, Hlat, Nat.add_0_l.
  unfold dy. rewrite north_pole, south_pole by done. lra.
Qed.

End sphere.

(** ** The generated grid *)

Section generated_grid.

Import Scrip.



Lemma assert_allclose_exact (x : R) : assert_allclose x x = inr tt.
Proof.
  unfold assert_allclose. destruct (Rle_dec _ _) as [|Hn]; [done|].
  destruct Hn. rewrite Rminus_diag, Rabs_R0.
  apply Rmult_le_pos; [|apply Rabs_pos].
  apply Rlt_le, Rinv_0_lt_compat. lra.
Qed.

Lemma centres_count (nx ny : nat) (lat lon : list Q) :
  length lat = ny -> length lon = nx ->
  length (mjoin ((fun y => replicate nx y) <$> lat)) = ny * nx
  /\ length (mjoin (replicate ny lon)) = ny * nx.
Proof.
  intros <- <-. rewrite !length_join. split.
  - rewrite <- list_fmap_compose.
    rewrite (sum_list_fmap_same (length lon)); [done|].
    apply Forall_forall. intros y _. cbn. apply length_replicate.
  - by rewrite fmap_replicate, sum_list_replicate.
Qed.

(** What [latlon_to_scrip] returns for positive sizes and the default
    mask. *)
Lemma latlon_to_scrip_ok (nx ny : Z) (lon0 : Q) :
  (0 < nx)%Z -> (0 < ny)%Z ->
  let dx := (360 / inject_Z nx)%Q in
  let dy := (180 / inject_Z ny)%Q in
  let lat := np_arange (-90 + dy / 2) 90 dy in
  let lon := np_arange (lon0 + dx / 2) (lon0 + 360) dx in
  let y_center := (fun y => replicate (Z.to_nat nx) y) <$> lat in
  let x_center := replicate (Z.to_nat ny) lon in
  latlon_to_scrip nx ny lon0 None
  = inr {| grid_dims := (nx, ny);
           grid_center_lat := mjoin y_center;
           grid_center_lon := mjoin x_center;
           grid_corner_lat := mjoin (y_corners dy y_center);
           grid_corner_lon := mjoin (x_corners dx x_center);
           grid_imask := replicate (Z.to_nat (ny * nx)) 1%Z;
           grid_area := mjoin (zip_with (zip_with cell_area)
                                        (y_corners dy y_center)
                                        (x_corners dx x_center)) |}.
Proof.
  intros Hnx Hny dx dy lat lon y_center x_center.
  subst dx dy lat lon y_center x_center.
  unfold latlon_to_scrip.
  rewrite (proj2 (Z.eqb_neq nx 0)), (proj2 (Z.eqb_neq ny 0)) by lia.
  cbn [orb]. rewrite centers_ok by done.
  rewrite (grid_area_sum nx ny lon0 Hnx Hny), assert_allclose_exact.
  destruct (centres_count (Z.to_nat nx) (Z.to_nat ny)
              (np_arange (-90 + 180 / inject_Z ny / 2) 90 (180 / inject_Z ny))
              (np_arange (lon0 + 360 / inject_Z nx / 2) (lon0 + 360)
                         (360 / inject_Z nx))) as [Hc _];
    [by apply lat_length|by apply lon_length|].
  rewrite Hc, length_replicate, Z2Nat.inj_mul by lia.
  by rewrite Nat.eqb_refl.
Qed.






(** A regridder from a generated grid to itself with the identity table
    returns every fitting field of valid numbers as it is. *)
Corollary generated_grid_identity (nx ny : Z) (lon0 : Q) w0 :
  (0 < nx)%Z -> (0 < ny)%Z ->
  exists ds self,
    latlon_to_scrip nx ny lon0 None = inr ds
    /\ regridder_init "grid.nc" "grid.nc" (to_grid_file ds) (to_grid_file ds)
                      (identity_table (Z.to_nat ny * Z.to_nat nx)) w0
       = (inr self, w0)
    /\ forall da renormalize apply_mask w,
         field_fits self (da_data da) renormalize ->
         all_valid (data (da_data da)) ->
         exists out,
           regrid_dataarray self da renormalize apply_mask w = (inr out, w)
           /\ array_equal (data (da_data out)) (data (da_data da)).
Proof.
  intros Hnx Hny. eexists.
  destruct (regridder_init_identity "grid.nc" "grid.nc"
              (Build_grid_file (Z.to_nat nx, Z.to_nat ny)
                               (replicate (Z.to_nat (ny * nx)) 1%Z)) w0)
    as (self & Hinit & Hself & Hs & Hd & Hm & Hw).
  { cbn. rewrite length_replicate. apply Z2Nat.inj_mul; lia. }
  exists self. split; [by apply latlon_to_scrip_ok|]. split; [exact Hinit|].
  intros da rn am w Hfit Hval.
  destruct (regrid_dataarray_identity self da rn am w) as (out & Hr & _ & Hdata);
    try done.
  - rewrite Hw. unfold n_src. by rewrite Hs.
  - by rewrite Hs, Hd.
  - rewrite Hm. cbn. by apply Forall_replicate.
  - exists out. split; [done|]. rewrite Hdata. apply through_identity_equal.
Qed.

End generated_grid.

(** * Further properties of the code *)

(** ** [esmf_apply_weights]: checks, cells and batches *)

Section more_apply_weights.

(** X1.  On a C-contiguous array the three assertions are tried in the
    order of the source and the first that fails raises, with its own
    message and no other effect; when all three hold the call raises no
    [AssertionError]. *)
Theorem esmf_apply_weights_assertions W a shape_in shape_out w :
  flags_C_CONTIGUOUS a = true ->
  let shape_horiz := drop (length (shape a) - 2) (shape a) in
  (shape_horiz <> [shape_in.1; shape_in.2] ->
   esmf_apply_weights W a shape_in shape_out w =
   (inl (AssertionError (horizontal_shape_differs shape_horiz shape_in)), w))
  /\ (shape_horiz = [shape_in.1; shape_in.2] ->
      shape_in.1 * shape_in.2 <> (coo_shape W).2 ->
      esmf_apply_weights W a shape_in shape_out w =
      (inl (AssertionError weights_shape1_differs), w))
  /\ (shape_horiz = [shape_in.1; shape_in.2] ->
      shape_in.1 * shape_in.2 = (coo_shape W).2 ->
      shape_out.1 * shape_out.2 <> (coo_shape W).1 ->
      esmf_apply_weights W a shape_in shape_out w =
      (inl (AssertionError weights_shape0_differs), w))
  /\ (shape_horiz = [shape_in.1; shape_in.2] ->
      shape_in.1 * shape_in.2 = (coo_shape W).2 ->
      shape_out.1 * shape_out.2 = (coo_shape W).1 ->
      forall msg w',
        esmf_apply_weights W a shape_in shape_out w
        <> (inl (AssertionError msg), w')).
Proof.
  intros Hc shape_horiz.
  destruct (esmf_apply_weights_shape_errors W a shape_in shape_out w Hc)
    as (H1 & H2 & H3).
  repeat split; try done.
  intros Hh Hin Hout msg w'.
  unfold esmf_apply_weights, bind, py_assert, np_reshape_rows, np_reshape.
  rewrite Hc. cbn [negb ret]. fold shape_horiz.
  rewrite bool_decide_eq_true_2 by done.
  rewrite (proj2 (Nat.eqb_eq _ _) Hin), (proj2 (Nat.eqb_eq _ _) Hout).
  unfold ret, raise.
  repeat match goal with
         | |- context [if ?b then _ else _] => destruct b
         end; discriminate.
Qed.

Lemma esmf_apply_weights_assertions_witness :
  flags_C_CONTIGUOUS (ones_3x2 C_layout) = true
  /\ esmf_apply_weights (identity_coo 4) (ones_3x2 C_layout) (2, 2) (2, 2) world0
     = (inl (AssertionError (horizontal_shape_differs [3; 2] (2, 2))), world0).
Proof.
  split; [reflexivity|].
  apply (proj1 (esmf_apply_weights_assertions (identity_coo 4) (ones_3x2 C_layout)
                  (2, 2) (2, 2) world0 eq_refl)).
  discriminate.
Defined.

(** X2.  On well-shaped input the result keeps the leading dimensions of
    the input and ends in [shape_out]; its cell [r] of batch [b] is the sum,
    in table order and starting from [0.0], of [S * x[col]] over the
    triplets of row [r], where [x] is batch [b] of the input (so triplets
    that repeat a position add up, and a row with no triplet is [0.0]). *)
Theorem esmf_apply_weights_cells W a shape_in shape_out w :
  flags_C_CONTIGUOUS a = true ->
  wf_array a ->
  drop (length (shape a) - 2) (shape a) = [shape_in.1; shape_in.2] ->
  shape_in.1 * shape_in.2 = (coo_shape W).2 ->
  shape_out.1 * shape_out.2 = (coo_shape W).1 ->
  0 < shape_in.1 * shape_in.2 ->
  exists out,
    esmf_apply_weights W a shape_in shape_out w = (inr out, w)
    /\ shape out
       = take (length (shape a) - 2) (shape a) ++ [shape_out.1; shape_out.2]
    /\ wf_array out
    /\ forall b r,
         b < size_of (take (length (shape a) - 2) (shape a)) ->
         r < (coo_shape W).1 ->
         exists xs,
           (forall c, c < (coo_shape W).2 ->
                      xs !! c = data a !! (b * (coo_shape W).2 + c))
           /\ length xs = (coo_shape W).2
           /\ data out !! (b * (coo_shape W).1 + r)
              = Some (row_sum (coo_entries W) xs r)
           /\ ((forall e, e ∈ coo_entries W -> e.1.1 <> r) ->
               data out !! (b * (coo_shape W).1 + r) = Some F64.zero).
Proof.
  intros Hc Hwf Hh Hin Hout Hpos.
  pose proof (wf_array_length a _ _ Hwf Hh) as Hlen.
  pose proof (esmf_apply_weights_ok W a shape_in shape_out w
                Hc Hwf Hh Hin Hout Hpos) as Hrun.
  rewrite Hin in Hlen, Hpos, Hrun.
  pose proof (batches_length a _ _ Hlen Hpos) as Hbl.
  eexists. split; [exact Hrun|].
  cbn [shape data]. split; [done|]. split.
  { unfold wf_array. cbn [shape data].
    rewrite rows_length, Hbl, size_of_app. f_equal.
    unfold size_of. cbn [foldr]. rewrite Nat.mul_1_r. done. }
  intros b r Hb Hr.
  destruct (lookup_lt_is_Some_2 (batches (coo_shape W).2 a) b) as [xs Hxs];
    [by rewrite Hbl|].
  assert (Hxl : length xs = (coo_shape W).2).
  { unfold batches in Hxs. rewrite Hlen, Nat.div_mul in Hxs by lia.
    exact (Forall_lookup_1 _ _ _ _
             (reshape_rows_length (data a) _ _ Hlen) Hxs). }
  exists xs. repeat split; try done.
  - intros c Hcol. destruct (xs !! c) as [v|] eqn:Hv.
    + symmetry. apply (batches_lookup a _ _ b c v Hlen Hpos Hcol). eauto.
    + apply lookup_ge_None in Hv. lia.
  - by apply product_cell.
  - intros Habs. rewrite (product_cell W _ b r xs) by done.
    by rewrite row_sum_absent.
Qed.

Lemma esmf_apply_weights_cells_witness :
  wf_array (field_1234 C_layout)
  /\ exists out,
       esmf_apply_weights (identity_coo 4) (field_1234 C_layout) (2, 2) (2, 2) world0
       = (inr out, world0)
       /\ shape out = [2; 2].
Proof.
  split; [reflexivity|].
  destruct (esmf_apply_weights_cells (identity_coo 4) (field_1234 C_layout)
              (2, 2) (2, 2) world0) as (out & Hrun & Hshape & _);
    try reflexivity; [cbn; lia|].
  exists out. split; [exact Hrun|exact Hshape].
Defined.

End more_apply_weights.

Section batchwise.

Lemma join_slice {A} (rows : list (list A)) m b row :
  Forall (fun r => length r = m) rows ->
  rows !! b = Some row ->
  take m (drop (b * m) (mjoin rows)) = row.
Proof.
  intros Hall. revert b. induction Hall as [|r rows Hr Hall IH]; intros b Hb.
  - done.
  - change (mjoin (r :: rows)) with (r ++ mjoin rows).
    destruct b as [|b]; cbn [lookup list_lookup] in Hb.
    + injection Hb as ->. rewrite Nat.mul_0_l, drop_0.
      by rewrite take_app_length'.
    + replace (S b * m) with (length r + b * m) by (rewrite Hr; lia).
      rewrite <- drop_drop, drop_app_length. by apply IH.
Qed.

(** X3.  Leading dimensions are only carried along: slice [b] of the
    result is what the call gives for slice [b] of the input taken alone
    as a two-dimensional field. *)
Theorem esmf_apply_weights_batchwise W a shape_in shape_out w b :
  flags_C_CONTIGUOUS a = true ->
  wf_array a ->
  drop (length (shape a) - 2) (shape a) = [shape_in.1; shape_in.2] ->
  shape_in.1 * shape_in.2 = (coo_shape W).2 ->
  shape_out.1 * shape_out.2 = (coo_shape W).1 ->
  0 < shape_in.1 * shape_in.2 ->
  b < size_of (take (length (shape a) - 2) (shape a)) ->
  exists out out_b,
    esmf_apply_weights W a shape_in shape_out w = (inr out, w)
    /\ esmf_apply_weights W
         (mk_ndarray [shape_in.1; shape_in.2]
            (take (coo_shape W).2 (drop (b * (coo_shape W).2) (data a)))
            C_layout)
         shape_in shape_out w = (inr out_b, w)
    /\ shape out_b = [shape_out.1; shape_out.2]
    /\ data out_b
       = take (coo_shape W).1 (drop (b * (coo_shape W).1) (data out)).
Proof.
  intros Hc Hwf Hh Hin Hout Hpos Hb.
  pose proof (wf_array_length a _ _ Hwf Hh) as Hlen.
  pose proof (esmf_apply_weights_ok W a shape_in shape_out w
                Hc Hwf Hh Hin Hout Hpos) as Hrun.
  rewrite Hin in Hlen, Hpos, Hrun.
  pose proof (batches_length a _ _ Hlen Hpos) as Hbl.
  pose proof (reshape_rows_length (data a) _ _ Hlen) as Hall.
  destruct (lookup_lt_is_Some_2 (batches (coo_shape W).2 a) b) as [xs Hxs];
    [by rewrite Hbl|].
  assert (Hxl : length xs = (coo_shape W).2).
  { unfold batches in Hxs. rewrite Hlen, Nat.div_mul in Hxs by lia.
    exact (Forall_lookup_1 _ _ _ _ Hall Hxs). }
  assert (Hslice : take (coo_shape W).2 (drop (b * (coo_shape W).2) (data a)) = xs).
  { rewrite <- (batches_join a _ _ Hlen Hpos) at 1.
    apply join_slice; [|done].
    unfold batches. by rewrite Hlen, Nat.div_mul by lia. }
  rewrite Hslice.
  set (a_b := mk_ndarray [shape_in.1; shape_in.2] xs C_layout).
  assert (Hwf_b : wf_array a_b).
  { unfold wf_array, a_b, size_of. cbn. rewrite Nat.mul_1_r. lia. }
  assert (Hpos' : 0 < shape_in.1 * shape_in.2) by lia.
  pose proof (esmf_apply_weights_ok W a_b shape_in shape_out w
                eq_refl Hwf_b eq_refl Hin Hout Hpos') as Hrun_b.
  do 2 eexists. split; [exact Hrun|]. split; [exact Hrun_b|].
  cbn [shape data length Nat.sub take app]. split; [done|].
  rewrite Hin. unfold batches at 1. cbn [data a_b].
  rewrite Hxl, Nat.div_same by lia. cbn [replicate reshape fmap list_fmap mjoin].
  rewrite <- Hxl at 1. rewrite take_ge by done. cbn. rewrite app_nil_r.
  symmetry. apply join_slice.
  - apply Forall_fmap, Forall_forall. intros row _. apply coo_matvec_length.
  - by rewrite list_lookup_fmap, Hxs.
Qed.

Lemma esmf_apply_weights_batchwise_witness :
  exists out out_b,
    esmf_apply_weights (identity_coo 2)
      (mk_ndarray [2; 1; 2] [F64.one; F64.zero; F64.zero; F64.one] C_layout)
      (1, 2) (1, 2) world0 = (inr out, world0)
    /\ esmf_apply_weights (identity_coo 2)
         (mk_ndarray [1; 2] [F64.zero; F64.one] C_layout)
         (1, 2) (1, 2) world0 = (inr out_b, world0)
    /\ shape out_b = [1; 2]
    /\ data out_b = take 2 (drop 2 (data out)).
Proof.
  apply (esmf_apply_weights_batchwise (identity_coo 2)
           (mk_ndarray [2; 1; 2] [F64.one; F64.zero; F64.zero; F64.one] C_layout)
           (1, 2) (1, 2) world0 1); try reflexivity; cbn; lia.
Defined.

End batchwise.

(** ** [regridder.__init__]: what it accepts and what it stores *)

Section more_constructor.

Lemma existsb_false_Forall {A} (p : A -> bool) (l : list A) :
  existsb p l = false -> Forall (fun a => p a = false) l.
Proof.
  induction l as [|a l IH]; cbn; [constructor|].
  intros [Ha Hl]%orb_false_iff. constructor; auto.
Qed.

Lemma sps_coo_matrix_cases triplets shp w :
  (Forall (fun t : Z * Z * float =>
             (0 <= t.1.1 < Z.of_nat shp.1)%Z /\ (0 <= t.1.2 < Z.of_nat shp.2)%Z)
          triplets
   /\ sps_coo_matrix triplets shp w
      = (inr (mk_coo shp
                ((fun t : Z * Z * float => (Z.to_nat t.1.1, Z.to_nat t.1.2, t.2))
                   <$> triplets)), w))
  \/ (~ Forall (fun t : Z * Z * float =>
                  (0 <= t.1.1 < Z.of_nat shp.1)%Z /\ (0 <= t.1.2 < Z.of_nat shp.2)%Z)
               triplets
      /\ exists msg, sps_coo_matrix triplets shp w = (inl (ValueError msg), w)).
Proof.
  unfold sps_coo_matrix.
  set (rows := (fun t : Z * Z * float => t.1.1) <$> triplets).
  set (cols := (fun t : Z * Z * float => t.1.2) <$> triplets).
  destruct (existsb (fun r => (Z.of_nat shp.1 <=? r)%Z) rows) eqn:E1.
  { right. split; [|by eexists].
    intros Hall. rewrite existsb_none in E1; [done|].
    apply Forall_fmap. eapply Forall_impl; [exact Hall|].
    cbn. intros t Ht. apply Z.leb_gt. lia. }
  destruct (existsb (fun c => (Z.of_nat shp.2 <=? c)%Z) cols) eqn:E2.
  { right. split; [|by eexists].
    intros Hall. rewrite existsb_none in E2; [done|].
    apply Forall_fmap. eapply Forall_impl; [exact Hall|].
    cbn. intros t Ht. apply Z.leb_gt. lia. }
  destruct (existsb (fun r => (r <? 0)%Z) rows) eqn:E3.
  { right. split; [|by eexists].
    intros Hall. rewrite existsb_none in E3; [done|].
    apply Forall_fmap. eapply Forall_impl; [exact Hall|].
    cbn. intros t Ht. apply Z.ltb_ge. lia. }
  destruct (existsb (fun c => (c <? 0)%Z) cols) eqn:E4.
  { right. split; [|by eexists].
    intros Hall. rewrite existsb_none in E4; [done|].
    apply Forall_fmap. eapply Forall_impl; [exact Hall|].
    cbn. intros t Ht. apply Z.ltb_ge. lia. }
  left. split; [|done].
  apply existsb_false_Forall, Forall_fmap in E1, E2, E3, E4.
  apply Forall_forall. intros t Ht.
  pose proof (proj1 (Forall_forall _ _) E1 t Ht) as H1.
  pose proof (proj1 (Forall_forall _ _) E2 t Ht) as H2.
  pose proof (proj1 (Forall_forall _ _) E3 t Ht) as H3.
  pose proof (proj1 (Forall_forall _ _) E4 t Ht) as H4.
  cbn in H1, H2, H3, H4.
  apply Z.leb_gt in H1, H2. apply Z.ltb_ge in H3, H4. lia.
Qed.

Lemma shifted_in_range mf n_d n_s :
  table_in_range mf n_d n_s <->
  Forall (fun t : Z * Z * float =>
            (0 <= t.1.1 < Z.of_nat n_d)%Z /\ (0 <= t.1.2 < Z.of_nat n_s)%Z)
         ((fun t : Z * Z * float => (t.1.1 - 1, t.1.2 - 1, t.2)%Z) <$> row_col_S mf).
Proof.
  unfold table_in_range. rewrite Forall_fmap.
  split; intros H; (eapply Forall_impl; [exact H|]); cbn; intros t; lia.
Qed.


(** X4.  The constructor returns exactly when the destination mask has one
    entry per destination cell and every one-based [row] and [col] of the
    weight table addresses a cell of the destination and the source grid;
    in every other case it raises [ValueError].  What it returns has the
    dimensions of both grids reversed to [(ny, nx)], a weight matrix of
    shape [(n_dst, n_src)] and the triplets of the table in file order with
    their indices counted from zero.  It has no other effect. *)
Theorem regridder_init_returns src_name dst_name src dst mf w :
  (files_fit src dst mf ->
   exists self,
     regridder_init src_name dst_name src dst mf w = (inr self, w)
     /\ src_grid_file self = src_name /\ dst_grid_file self = dst_name
     /\ dims_src self = ((grid_dims src).2, (grid_dims src).1)
     /\ dims_dst self = ((grid_dims dst).2, (grid_dims dst).1)
     /\ coo_shape (weights self) = (n_dst self, n_src self)
     /\ coo_entries (weights self)
        = (fun t : Z * Z * float =>
             (Z.to_nat (t.1.1 - 1), Z.to_nat (t.1.2 - 1), t.2))
            <$> row_col_S mf)
  /\ (~ files_fit src dst mf ->
      exists msg,
        regridder_init src_name dst_name src dst mf w = (inl (ValueError msg), w)).
Proof.
  unfold files_fit, regridder_init, bind, np_reshape2.
  destruct (grid_dims src) as [nxs nys], (grid_dims dst) as [nxd nyd].
  cbn [prod_swap fst snd].
  destruct (Nat.eqb_spec (length (grid_imask dst)) (nyd * nxd)) as [Hl|Hl];
    cbn [ret raise].
  2:{ split; [by intros [? _]|]. intros _. by eexists. }
  destruct (sps_coo_matrix_cases
              ((fun t : Z * Z * float => (t.1.1 - 1, t.1.2 - 1, t.2)%Z)
                 <$> row_col_S mf) (nyd * nxd, nys * nxs) w)
    as [[Hall ->]|[Hnot [msg ->]]]; cbn [fst snd] in *.
  - split; [|intros []; split; [done|by apply shifted_in_range]].
    intros _. eexists. split; [reflexivity|]. cbn.
    repeat split. by rewrite <- list_fmap_compose.
  - split; [|intros _; by eexists].
    intros [_ Hin]. destruct Hnot. by apply shifted_in_range.
Qed.

Lemma regridder_init_returns_witness :
  files_fit grid_2x1 grid_2x1_masked two_weights
  /\ exists self,
       regridder_init "src.nc" "dst.nc" grid_2x1 grid_2x1_masked two_weights world0
       = (inr self, world0)
       /\ dims_dst self = (1, 2).
Proof.
  assert (Hfit : files_fit grid_2x1 grid_2x1_masked two_weights).
  { split; [reflexivity|]. repeat constructor; cbn; lia. }
  split; [exact Hfit|].
  destruct (proj1 (regridder_init_returns "src.nc" "dst.nc"
                     grid_2x1 grid_2x1_masked two_weights world0) Hfit)
    as (self & Hrun & _ & _ & _ & Hd & _).
  exists self. split; [exact Hrun|exact Hd].
Defined.

(** X5.  The stored mask is the transpose of the file's mask read as an
    [(ny, nx)] array: it has shape [(nx, ny)] and its element [(i, j)] is
    the mask of row [j], column [i] of the grid; transposing it again, as
    [regrid_dataarray] does before masking, gives the file's order back. *)
Theorem regridder_init_mask src_name dst_name src dst mf w self w' :
  regridder_init src_name dst_name src dst mf w = (inr self, w') ->
  a2_shape (mask_dst self) = grid_dims dst
  /\ (forall i j, i < (grid_dims dst).1 -> j < (grid_dims dst).2 ->
        a2_data (mask_dst self) !! (i * (grid_dims dst).2 + j)
        = grid_imask dst !! (j * (grid_dims dst).1 + i))
  /\ T2 (mask_dst self)
     = mk_array2 ((grid_dims dst).2, (grid_dims dst).1) (grid_imask dst).
Proof.
  unfold regridder_init, bind, np_reshape2.
  destruct (grid_dims dst) as [nx ny]. cbn [prod_swap fst snd].
  destruct (Nat.eqb_spec (length (grid_imask dst)) (ny * nx)) as [Hl|Hl];
    cbn [ret raise]; [|discriminate].
  destruct (sps_coo_matrix _ _ w) as [[e|W] w1]; [discriminate|].
  intros [= <- <-]. cbn [mask_dst T2 a2_shape a2_data].
  split; [done|]. split.
  - intros i j Hi Hj.
    rewrite transpose2_lookup by (done || nia).
    f_equal.
    rewrite (Nat.add_comm (i * ny)), Nat.Div0.mod_add, Nat.mod_small by done.
    rewrite Nat.div_add by lia. rewrite Nat.div_small by done. lia.
  - rewrite transpose2_involutive; done.
Qed.

Lemma regridder_init_mask_witness :
  exists self,
    regridder_init "src.nc" "dst.nc" grid_2x1 grid_2x1_masked two_weights world0
    = (inr self, world0)
    /\ a2_shape (mask_dst self) = (2, 1)
    /\ a2_data (mask_dst self) !! 1 = grid_imask grid_2x1_masked !! 1.
Proof.
  eexists. split; [reflexivity|].
  destruct (regridder_init_mask "src.nc" "dst.nc" grid_2x1 grid_2x1_masked
              two_weights world0 _ world0 eq_refl) as (Hs & Hc & _).
  split; [exact Hs|]. apply (Hc 1 0); cbn; lia.
Defined.

End more_constructor.

(** ** [regrid_dataarray]: labels, missing values and reports *)

Section more_regrid.

Lemma esmf_apply_weights_shape W a shape_in shape_out w out w' :
  esmf_apply_weights W a shape_in shape_out w = (inr out, w') ->
  shape out = take (length (shape a) - 2) (shape a) ++ [shape_out.1; shape_out.2].
Proof.
  unfold esmf_apply_weights, bind, py_assert, np_reshape_rows, np_reshape,
    warnings_warn, load_global, bind, ret, raise.
  repeat match goal with
         | |- context [if ?b then _ else _] => destruct b
         end; try discriminate; by intros [= <- _].
Qed.

(** X6.  Whatever a transform returns carries the name, the dimension
    names and the attributes of the input; its coordinates are those of the
    input that belong to a leading dimension, and no others; its shape is
    the leading dimensions of the input followed by the dimensions of the
    destination grid.  With distinct dimension names the coordinates of the
    two horizontal dimensions are therefore dropped. *)
Theorem regrid_dataarray_labels self da renormalize apply_mask w out w' :
  regrid_dataarray self da renormalize apply_mask w = (inr out, w') ->
  da_name out = da_name da
  /\ da_dims out = da_dims da
  /\ da_attrs out = da_attrs da
  /\ (forall d c,
        (d, c) ∈ da_coords out <->
        d ∈ take (length (da_dims da) - 2) (da_dims da)
        /\ coords_lookup d (da_coords da) = Some c)
  /\ (NoDup (da_dims da) ->
      forall d c, d ∈ drop (length (da_dims da) - 2) (da_dims da) ->
                  (d, c) ∉ da_coords out)
  /\ shape (da_data out)
     = take (length (shape (da_data da)) - 2) (shape (da_data da))
       ++ [(dims_dst self).1; (dims_dst self).2].
Proof.
  intros Hrun.
  assert (Hout : exists a,
             shape a = take (length (shape (da_data da)) - 2) (shape (da_data da))
                       ++ [(dims_dst self).1; (dims_dst self).2]
             /\ out = finish self apply_mask (reform da a)).
  { revert Hrun. unfold regrid_dataarray. unfold bind at 1.
    destruct (esmf_apply_weights _ _ _ _ w) as [[e|raw] w1] eqn:E1; [done|].
    apply esmf_apply_weights_shape in E1.
    destruct renormalize.
    - unfold bind at 1. unfold bind at 1. unfold np_seterr_invalid at 1.
      unfold bind at 1.
      destruct (esmf_apply_weights _ _ _ _ _) as [[e|cov] w2] eqn:E2; [done|].
      apply esmf_apply_weights_shape in E2.
      unfold bind at 1. unfold np_divide at 1. unfold bind at 1.
      destruct (fp_handle _ _) as [[e|[]] w3]; [done|].
      cbn. intros [= <- _]. eexists. split; [|reflexivity].
      cbn. exact E2.
    - cbn. intros [= <- _]. eexists. split; [|reflexivity]. exact E1. }
  destruct Hout as (a & Hshape & ->).
  assert (Hcoords : forall d c,
             (d, c) ∈ da_coords (finish self apply_mask (reform da a)) <->
             d ∈ take (length (da_dims da) - 2) (da_dims da)
             /\ coords_lookup d (da_coords da) = Some c).
  { intros d c.
    replace (da_coords (finish self apply_mask (reform da a)))
      with (da_coords (reform da a)) by by destruct apply_mask.
    cbn [reform da_coords]. rewrite list_elem_of_omap. split.
    - intros (d' & Hd & Hf).
      destruct (coords_lookup d' (da_coords da)) as [c'|] eqn:Hc; [|done].
      cbn in Hf. by injection Hf as -> ->.
    - intros [Hd Hc]. exists d. split; [done|]. by rewrite Hc. }
  assert (Hdrop : NoDup (da_dims da) ->
             forall d c, d ∈ drop (length (da_dims da) - 2) (da_dims da) ->
                         (d, c) ∉ da_coords (finish self apply_mask (reform da a))).
  { intros Hnd d c Hd [Hin _]%Hcoords.
    rewrite <- (take_drop (length (da_dims da) - 2) (da_dims da)) in Hnd.
    apply NoDup_app in Hnd as (_ & Hdisj & _). by apply (Hdisj d). }
  split; [by destruct apply_mask|]. split; [by destruct apply_mask|].
  split; [by destruct apply_mask|]. split; [exact Hcoords|].
  split; [exact Hdrop|]. by destruct apply_mask.
Qed.

Lemma regrid_dataarray_labels_witness :
  exists out,
    regrid_dataarray half_masked
      {| da_data := mk_ndarray [1; 1; 1] [F64.of_Z 5] C_layout;
         da_name := "biomass"; da_dims := ["time"; "lat"; "lon"];
         da_attrs := [("units", "mg/m3")];
         da_coords := [("lat", [F64.zero]); ("time", [F64.one])] |}
      true true world0 = (inr out, world0)
    /\ da_name out = "biomass"
    /\ da_dims out = ["time"; "lat"; "lon"]
    /\ da_coords out = [("time", [F64.one])]
    /\ shape (da_data out) = [1; 1; 2].
Proof.
  eexists. split; [reflexivity|].
  destruct (regrid_dataarray_labels half_masked
              {| da_data := mk_ndarray [1; 1; 1] [F64.of_Z 5] C_layout;
                 da_name := "biomass"; da_dims := ["time"; "lat"; "lon"];
                 da_attrs := [("units", "mg/m3")];
                 da_coords := [("lat", [F64.zero]); ("time", [F64.one])] |}
              true true world0 _ world0 eq_refl)
    as (Hn & Hd & _ & _ & _ & Hs).
  split; [exact Hn|]. split; [exact Hd|]. split; [reflexivity|exact Hs].
Defined.

Lemma reshape_Forall {A} (P : A -> Prop) szs (l : list A) :
  Forall P l -> Forall (Forall P) (reshape szs l).
Proof.
  revert l. induction szs as [|n szs IH]; intros l Hl; cbn; constructor.
  - by apply Forall_take.
  - by apply IH, Forall_drop.
Qed.

Lemma row_step_zero_or_nan x r acc e :
  Forall (fun v => v = F64.zero) x ->
  zero_or_nan acc -> zero_or_nan (row_step x r acc e).
Proof.
  intros Hx Hacc. unfold row_step. case_bool_decide; [|done].
  destruct (x !! e.1.2) as [xc|] eqn:Hxc; [|done].
  rewrite (Forall_lookup_1 _ _ _ _ Hx Hxc).
  destruct acc as [[]|[]| |]; try done; by destruct e.2 as [[]|[]| |[]].
Qed.

Lemma row_sum_zero_or_nan es x r :
  Forall (fun v => v = F64.zero) x -> zero_or_nan (row_sum es x r).
Proof.
  intros Hx. unfold row_sum.
  assert (H0 : zero_or_nan F64.zero) by done. revert H0.
  generalize F64.zero. induction es as [|e es IH]; intros acc Hacc; [done|].
  cbn [fold_left]. by apply IH, row_step_zero_or_nan.
Qed.

Lemma zero_or_nan_not_positive v :
  zero_or_nan v -> F64.gt v F64.zero = false.
Proof. by destruct v as [[]|[]| |]. Qed.

(** The coverage of a field in which every value is missing is nowhere
    positive. *)
Lemma coverage_all_missing self a i y :
  Forall (fun v => F64.isnan v = true) (data a) ->
  coverage_array self a !! i = Some y -> F64.gt y F64.zero = false.
Proof.
  intros Hnan Hy. unfold coverage_array in Hy.
  apply product_index in Hy as (b & row & k & Hrow & _ & _ & ->).
  apply zero_or_nan_not_positive, row_sum_zero_or_nan.
  rewrite list_lookup_fmap in Hrow.
  destruct (batches (n_src self) a !! b) as [xs|] eqn:Hxs; [|done].
  injection Hrow as <-.
  apply Forall_fmap.
  assert (Hall : Forall (Forall (fun v => F64.isnan v = true))
                        (batches (n_src self) a)) by by apply reshape_Forall.
  eapply Forall_impl; [exact (Forall_lookup_1 _ _ _ _ Hall Hxs)|].
  cbn. intros v Hv. unfold indicator. by rewrite Hv.
Qed.

(** X7.  A field in which every value is missing is transformed, with
    renormalization, into a field in which every value is missing,
    whatever the weights are: the coverage of a cell is then a sum of
    products with [0.0], which is never positive.  Nothing is reported and
    the session is left as it was. *)
Theorem regrid_dataarray_all_missing self da apply_mask w :
  wf_regridder self ->
  field_fits self (da_data da) true ->
  Forall (fun v => F64.isnan v = true) (data (da_data da)) ->
  exists out,
    regrid_dataarray self da true apply_mask w = (inr out, w)
    /\ forall b k,
         b < n_batches (da_data da) -> k < n_dst self ->
         data (da_data out) !! (b * n_dst self + k) = Some F64.nan.
Proof.
  intros Hwf Hfit Hnan.
  rewrite regrid_dataarray_renormalize by done.
  assert (Hfl : renormalize_flags self (da_data da) = no_flags).
  { unfold renormalize_flags. apply flags_fold_none.
    intros i x y _ Hy. rewrite list_lookup_fmap in Hy.
    destruct (coverage_array self (da_data da) !! i) as [c|] eqn:Hc; [|done].
    injection Hy as <-. unfold positive_or_nan.
    rewrite (coverage_all_missing self _ i c Hnan Hc).
    apply div_flags_nan_r. }
  rewrite Hfl, fp_handle_no_flags, world_eta.
  eexists. split; [reflexivity|].
  intros b k Hb Hk.
  destruct (arrays_length self _ true Hwf Hfit) as (Hlr & Hlc & _).
  assert (Hi : b * n_dst self + k < n_batches (da_data da) * n_dst self) by nia.
  destruct (lookup_lt_is_Some_2 (raw_array self (da_data da)) _
              ltac:(rewrite Hlr; exact Hi)) as [x Hx].
  destruct (lookup_lt_is_Some_2 (coverage_array self (da_data da)) _
              ltac:(rewrite Hlc; exact Hi)) as [c Hc].
  destruct Hwf as [Hshape Hmask].
  destruct (lookup_lt_is_Some_2 (mask_cells self) k ltac:(by rewrite Hmask))
    as [m Hm].
  rewrite (finish_cell self apply_mask da (da_data da) _ b k F64.nan m)
    by (try done; unfold renormalized_array;
        rewrite lookup_zip_with, Hx; cbn; rewrite Hc; cbn;
        unfold renormalized;
        by rewrite (coverage_all_missing self _ _ c Hnan Hc)).
  destruct apply_mask; [|done]. unfold masked. by destruct (m =? 0)%Z.
Qed.

Lemma regrid_dataarray_all_missing_witness :
  wf_regridder half_masked
  /\ exists out,
       regrid_dataarray half_masked (field_of [1; 1] [F64.nan]) true false world0
       = (inr out, world0)
       /\ forall b k,
            b < n_batches (da_data (field_of [1; 1] [F64.nan])) ->
            k < n_dst half_masked ->
            data (da_data out) !! (b * n_dst half_masked + k) = Some F64.nan.
Proof.
  assert (Hwf : wf_regridder half_masked) by (split; reflexivity).
  split; [exact Hwf|].
  apply (regrid_dataarray_all_missing half_masked (field_of [1; 1] [F64.nan])
           false world0 Hwf).
  - repeat split; cbn; lia.
  - repeat constructor.
Defined.

Lemma fp_handle_range fl w r w' :
  err_invalid (errstate w) = err_ignore ->
  fp_divide fl = false ->
  fp_handle fl w = (r, w') ->
  (exists ws, warnings_log w' = warnings_log w ++ ws /\ Forall range_report ws)
  /\ (forall e, r = inl e ->
        e = FloatingPointError "overflow" \/ e = FloatingPointError "underflow").
Proof.
  destruct w as [[md mo mu mi] log], fl as [fd fo fu fi]. cbn.
  intros -> ->. unfold fp_handle, bind, fp_report. cbn.
  destruct fo, mo, fu, mu, fi; cbn; intros [= <- <-]; cbn.
  all: split; [|intros e [= <-]; auto].
  all: first [ exists []; split; [by rewrite app_nil_r|constructor]
             | eexists [_]; split; [reflexivity|]
             | eexists [_; _]; split; [by rewrite <- app_assoc|] ].
  all: repeat (apply Forall_cons_2; [unfold range_report; auto|]).
  all: apply Forall_nil_2.
Qed.

(** X8.  Under any error policy a transform reports floating-point
    trouble only as overflow or underflow: the warnings it adds to the
    session are of these two kinds, a [FloatingPointError] it raises is one
    of the two, and neither a division by zero nor an invalid value is
    ever reported, although coverages of zero are divided by. *)
Theorem regrid_dataarray_reports self da renormalize apply_mask w :
  (exists ws,
     warnings_log (regrid_dataarray self da renormalize apply_mask w).2
     = warnings_log w ++ ws
     /\ Forall range_report ws)
  /\ (forall what,
        (regrid_dataarray self da renormalize apply_mask w).1
        = inl (FloatingPointError what) ->
        what = "overflow" \/ what = "underflow").
Proof.
  destruct (regrid_dataarray self da renormalize apply_mask w) as [r w'] eqn:E.
  cbn [fst snd]. revert E.
  assert (Hnil : exists ws, warnings_log w = warnings_log w ++ ws
                            /\ Forall range_report ws).
  { exists []. split; [by rewrite app_nil_r|constructor]. }
  unfold regrid_dataarray. unfold bind at 1.
  destruct (esmf_apply_weights _ _ _ _ w) as [[e|raw] w1] eqn:E1.
  { pose proof (esmf_apply_weights_world _ _ _ _ _ _ _ E1) as ->.
    intros [= <- <-]. split; [done|]. intros what [= ->].
    by destruct (esmf_apply_weights_no_fp_error _ _ _ _ _ _ _ E1). }
  pose proof (esmf_apply_weights_world _ _ _ _ _ _ _ E1) as ->.
  destruct renormalize; [|cbn; intros [= <- <-]; by split].
  unfold bind at 1. unfold bind at 1. unfold np_seterr_invalid at 1.
  unfold bind at 1.
  match goal with
  | |- context [esmf_apply_weights ?W ?a ?si ?so ?w0] =>
      destruct (esmf_apply_weights W a si so w0) as [[e|cov] w2] eqn:E2
  end.
  { pose proof (esmf_apply_weights_world _ _ _ _ _ _ _ E2) as ->.
    cbn. intros [= <- <-]. split; [done|]. intros what [= ->].
    by destruct (esmf_apply_weights_no_fp_error _ _ _ _ _ _ _ E2). }
  pose proof (esmf_apply_weights_world _ _ _ _ _ _ _ E2) as ->.
  unfold bind at 1. unfold np_divide at 1. unfold bind at 1.
  destruct (fp_handle _ _) as [r3 w3] eqn:E3.
  apply fp_handle_range in E3 as [Hlog Herr]; [|done|].
  2:{ unfold np_where_as, np_greater. cbn [data]. rewrite positive_or_nan_zip.
      apply flags_fold_no_divide, Forall_fmap, Forall_forall.
      intros c _ s. apply positive_or_nan_not_zero. }
  cbn [warnings_log] in Hlog.
  destruct r3 as [e|[]]; cbn; intros [= <- <-].
  - split; [done|]. intros what [= ->].
    destruct (Herr _ eq_refl) as [[= ->]|[= ->]]; auto.
  - by split.
Qed.

End more_regrid.

(** ** [latlon_to_scrip]: arguments, mask, corners and areas *)

Section more_generated_grid.

Import Scrip.







End more_generated_grid.

(** ** The cells of the generated grid *)

Section cells_of_grid.

Import Scrip.
Local Open Scope Q_scope.












End cells_of_grid.

(** ** The areas of the cells *)

Section cell_areas.

Import Scrip.
Local Open Scope R_scope.







End cell_areas.

(** ** [regridder.__repr__] *)

Section representation.

Lemma substring_all p : String.substring 0 (String.length p) p = p.
Proof. induction p as [|a p IH]; [done|]. simpl. by rewrite IH. Qed.

Lemma basename_no_slash p : no_slash p -> basename p = p.
Proof.
  unfold no_slash, basename. intros ->. cbn [Z.add Z.to_nat].
  rewrite Nat.sub_0_r. apply substring_all.
Qed.

Lemma rfind_join c d n :
  rfind c n = (-1)%Z ->
  rfind c (String.append d (String c n)) = Z.of_nat (String.length d).
Proof.
  intros Hn. induction d as [|a d IH].
  - simpl. rewrite Hn. simpl. by rewrite Ascii.eqb_refl.
  - simpl String.append. simpl rfind. rewrite IH.
    rewrite (proj2 (Z.leb_le _ _)) by lia. simpl String.length. lia.
Qed.

Lemma length_join_path d a n :
  String.length (String.append d (String a n))
  = S (String.length d + String.length n).
Proof. induction d as [|b d IH]; simpl; [done|]. by rewrite IH. Qed.

Lemma substring_join d a n :
  String.substring (S (String.length d)) (String.length n)
                   (String.append d (String a n)) = n.
Proof.
  induction d as [|b d IH]; simpl.
  - apply substring_all.
  - exact IH.
Qed.

Lemma basename_join d n : no_slash n -> basename (path_join d n) = n.
Proof.
  intros Hn. unfold basename, path_join.
  rewrite (rfind_join _ d n Hn), length_join_path.
  replace (Z.to_nat (Z.of_nat (String.length d) + 1)) with (S (String.length d))
    by lia.
  replace (S (String.length d + String.length n) - S (String.length d))
    with (String.length n) by lia.
  apply substring_join.
Qed.

Lemma rfind_split c p :
  rfind c p = (-1)%Z
  \/ exists d n, p = String.append d (String c n) /\ rfind c n = (-1)%Z.
Proof.
  induction p as [|a p IH]; [by left|].
  destruct IH as [Hp|(d & n & -> & Hn)].
  - simpl rfind. rewrite Hp. simpl.
    destruct (Ascii.eqb_spec a c) as [->|Hne]; [|by left].
    right. by exists EmptyString, p.
  - right. by exists (String a d), n.
Qed.

(** Every path is its [basename], or a directory joined with it, and the
    [basename] holds no slash. *)
Lemma basename_spec p :
  no_slash (basename p)
  /\ (p = basename p \/ exists d, p = path_join d (basename p)).
Proof.
  destruct (rfind_split Posix.sep p) as [Hp|(d & n & -> & Hn)].
  - rewrite (basename_no_slash p Hp). split; [done|by left].
  - fold (path_join d n). rewrite (basename_join d n Hn).
    split; [done|]. right. by exists d.
Qed.

(** X14.  The printed form of a regridder is
    [regridder <source name> --> <destination name>], where the name of a
    grid file is its path without the directories: it holds no slash, and
    the path is the name or a directory joined with the name.  So for a
    file given as a directory joined with a slash-free name, or by such a
    name alone, that name is shown. *)
Theorem regridder_repr_names self :
  (exists name_src name_dst,
     regridder_repr self
     = String.append "regridder "
         (String.append name_src (String.append " --> " name_dst))
     /\ no_slash name_src /\ no_slash name_dst
     /\ (src_grid_file self = name_src
         \/ exists d, src_grid_file self = path_join d name_src)
     /\ (dst_grid_file self = name_dst
         \/ exists d, dst_grid_file self = path_join d name_dst))
  /\ (forall dir_src dir_dst name_src name_dst,
        no_slash name_src -> no_slash name_dst ->
        (src_grid_file self = path_join dir_src name_src
         \/ src_grid_file self = name_src) ->
        (dst_grid_file self = path_join dir_dst name_dst
         \/ dst_grid_file self = name_dst) ->
        regridder_repr self
        = String.append "regridder "
            (String.append name_src (String.append " --> " name_dst))).
Proof.
  split.
  - exists (basename (src_grid_file self)), (basename (dst_grid_file self)).
    destruct (basename_spec (src_grid_file self)) as [Hs Hsp].
    destruct (basename_spec (dst_grid_file self)) as [Hd Hdp].
    by repeat split.
  - intros dir_src dir_dst name_src name_dst Hs Hd Hsrc Hdst.
    unfold regridder_repr.
    assert (basename (src_grid_file self) = name_src) as ->.
    { destruct Hsrc as [-> | ->];
        [by apply basename_join|by apply basename_no_slash]. }
    assert (basename (dst_grid_file self) = name_dst) as ->.
    { destruct Hdst as [-> | ->];
        [by apply basename_join|by apply basename_no_slash]. }
    done.
Qed.

Lemma regridder_repr_names_witness :
  regridder_repr
    {| src_grid_file := "/data/grids/POP_gx1v7.nc";
       dst_grid_file := "latlon_1x1.nc";
       dims_src := (1, 1); dims_dst := (1, 2);
       mask_dst := mk_array2 (2, 1) [1%Z; 1%Z];
       weights := mk_coo (2, 1) [] |}
  = "regridder POP_gx1v7.nc --> latlon_1x1.nc"%string.
Proof.
  apply (proj2 (regridder_repr_names _)
           "/data/grids" "" "POP_gx1v7.nc" "latlon_1x1.nc");
    [reflexivity|reflexivity|left; reflexivity|right; reflexivity].
Defined.

End representation.

(** ** Memory layout of the field given to [regrid_dataarray] *)

Section field_layout.

(** X15.  A field in Fortran order that is not C-contiguous as well (a
    transposed array, say) cannot be transformed: with or without
    renormalization the layout warning is attempted and [NameError] comes
    out, the session untouched.  A strided view in C order fails the same
    way without renormalization; with renormalization [np.where] has
    copied it first, and the result is that of the C-contiguous array with
    the same elements. *)
Theorem regrid_dataarray_layout self da renormalize apply_mask w :
  (order (da_data da) = F_layout ->
   regrid_dataarray self da renormalize apply_mask w
   = (inl (NameError "warnings"), w))
  /\ (order (da_data da) = C_strided ->
      regrid_dataarray self da false apply_mask w
      = (inl (NameError "warnings"), w))
  /\ (order (da_data da) = C_strided ->
      regrid_dataarray self da true apply_mask w
      = regrid_dataarray self
          {| da_data := mk_ndarray (shape (da_data da)) (data (da_data da))
                                   C_layout;
             da_name := da_name da; da_dims := da_dims da;
             da_attrs := da_attrs da; da_coords := da_coords da |}
          true apply_mask w).
Proof.
  destruct da as [[shp vals lay] name dims attrs coords].
  cbn [da_data order shape data da_name da_dims da_attrs da_coords].
  split; [|split]; intros ->.
  - unfold regrid_dataarray. unfold bind at 1.
    rewrite esmf_apply_weights_not_contiguous; [done|by destruct renormalize].
  - unfold regrid_dataarray. unfold bind at 1.
    by rewrite esmf_apply_weights_not_contiguous.
  - reflexivity.
Qed.

Lemma regrid_dataarray_layout_witness :
  regrid_dataarray
    {| src_grid_file := "src.nc"; dst_grid_file := "dst.nc";
       dims_src := (2, 2); dims_dst := (2, 2);
       mask_dst := mk_array2 (2, 2) [1%Z; 1%Z; 1%Z; 1%Z];
       weights := identity_coo 4 |}
    {| da_data := field_1234 F_layout; da_name := "field";
       da_dims := ["lat"; "lon"]; da_attrs := []; da_coords := [] |}
    true true world0
  = (inl (NameError "warnings"), world0).
Proof.
  apply (proj1 (regrid_dataarray_layout
                  {| src_grid_file := "src.nc"; dst_grid_file := "dst.nc";
                     dims_src := (2, 2); dims_dst := (2, 2);
                     mask_dst := mk_array2 (2, 2) [1%Z; 1%Z; 1%Z; 1%Z];
                     weights := identity_coo 4 |}
                  {| da_data := field_1234 F_layout; da_name := "field";
                     da_dims := ["lat"; "lon"]; da_attrs := [];
                     da_coords := [] |}
                  true true world0)).
  reflexivity.
Defined.

End field_layout.

(** ** From the generator to the regridder *)

Section generated_grid_regridder.

Import Scrip.



End generated_grid_regridder.

(** ** A mask without zeros *)

Section unmasked.

(** X17.  Masking by a destination mask without zeros changes nothing:
    the transform with [apply_mask=True] then returns what it returns with
    [apply_mask=False], or fails as it does, with or without
    renormalization (any non-zero mask value counts as unmasked). *)
Theorem regrid_dataarray_unmasked self da renormalize w :
  wf_regridder self ->
  field_fits self (da_data da) renormalize ->
  Forall (fun m => m <> 0%Z) (mask_cells self) ->
  regrid_dataarray self da renormalize true w
  = regrid_dataarray self da renormalize false w.
Proof.
  intros Hwf Hfit Hmask.
  destruct (arrays_length self (da_data da) renormalize Hwf Hfit)
    as (Hraw & Hcov & Hrem).
  assert (Hfinish : forall vals,
             length vals = n_batches (da_data da) * n_dst self ->
             finish self true
               (reform da (mk_ndarray (out_shape self (da_data da)) vals C_layout))
             = finish self false
                 (reform da (mk_ndarray (out_shape self (da_data da)) vals C_layout))).
  { intros vals Hlen.
    destruct (finish_unmasked self true da (da_data da) vals Hwf Hmask Hlen)
      as [Hd Hs].
    set (X := reform da (mk_ndarray (out_shape self (da_data da)) vals C_layout))
      in *.
    transitivity
      {| da_data := mk_ndarray (shape (da_data (finish self true X)))
                               (data (da_data (finish self true X))) C_layout;
         da_name := da_name X; da_dims := da_dims X;
         da_attrs := da_attrs X; da_coords := da_coords X |};
      [reflexivity|].
    by rewrite Hd, Hs. }
  destruct renormalize.
  - rewrite !regrid_dataarray_renormalize by done.
    destruct (fp_handle _ _) as [[e|[]] w1]; [done|].
    rewrite Hfinish; [done|].
    unfold renormalized_array. rewrite length_zip_with, Hraw, Hcov. lia.
  - rewrite !regrid_dataarray_plain by done. by rewrite Hfinish.
Qed.

Lemma regrid_dataarray_unmasked_witness :
  regrid_dataarray half_covered (field_of [1; 1] [F64.of_Z 5]) true true world0
  = regrid_dataarray half_covered (field_of [1; 1] [F64.of_Z 5]) true false world0.
Proof.
  apply (regrid_dataarray_unmasked half_covered (field_of [1; 1] [F64.of_Z 5])
           true world0).
  - split; reflexivity.
  - repeat split; cbn; lia.
  - repeat constructor; discriminate.
Defined.

End unmasked.
